(** * helium: tree builder, entity resolution and XML serializer

    A shallow embedding of the Go sources [dump.go] (escaping and the
    [Dumper]), of the SAX [TreeBuilder] and of the node data model, together
    with the properties stated about them in the specification.

    Conventions of the embedding:
    - a Go [byte] is a [Z] in [0, 256); a [[]byte] is a [list Z]; a Go
      [string] is a Rocq [string] (a sequence of 8-bit characters) and is
      turned into bytes with [bytes];
    - a [rune] is a [Z]; indices and widths are [nat];
    - an [io.Writer] is any type with a [Write] operation that may fail;
    - pointers to nodes are indices into a heap of objects;
    - a Go [panic] and the exhaustion of the fuel of a loop are explicit
      outcomes. *)

From Stdlib Require Import ZArith Lia String Ascii.
From stdpp Require Import base option list strings gmap.

Local Open Scope Z_scope.

(* ===================================================================== *)
(** ** Bytes, strings and errors *)
(* ===================================================================== *)

(** [[]byte(s)]: the bytes of a Go string. *)
Fixpoint bytes (s : string) : list Z :=
  match s with
  | EmptyString => []
  | String c s' => Z.of_N (N_of_ascii c) :: bytes s'
  end.

(** The double quote character, and a string made of it. *)
Definition dquote : string := String (ascii_of_nat 34) EmptyString.

(** Go's [error] values are built by [errors.New]; an error is its message. *)
Inductive error : Type :=
| errorString (msg : string).

(** What a Go call can do: return, panic, or (in the model only) exhaust
    the fuel given to one of its loops. *)
Inductive outcome (A : Type) : Type :=
| Done (a : A)
| Panic (msg : string)
| OutOfFuel.
Arguments Done {A} a.
Arguments Panic {A} msg.
Arguments OutOfFuel {A}.

#[global] Instance outcome_bind : MBind outcome := fun A B k m =>
  match m with
  | Done a => k a
  | Panic msg => Panic msg
  | OutOfFuel => OutOfFuel
  end.
#[global] Instance outcome_ret : MRet outcome := fun A a => Done a.

(* ===================================================================== *)
(** ** io.Writer *)
(* ===================================================================== *)

(** [w.Write(p)]: the new state of the sink and the error, if any. *)
Class Writer (W : Type) := Write : W -> list Z -> W * option error.

(** [io.WriteString(w, s)]. *)
Definition WriteString {W} `{Writer W} (w : W) (s : string) : W * option error :=
  Write w (bytes s).

(** A [bytes.Buffer]: every write appends and succeeds. *)
Definition Buffer : Type := list Z.
#[global] Instance Buffer_Writer : Writer Buffer :=
  fun b p => (b ++ p, None).

(** A sink that accepts at most [room] more bytes and fails on the write
    that would exceed it (writing nothing of it). *)
Record LimitedBuffer : Type := mkLimited { room : nat; written : list Z }.
#[global] Instance LimitedBuffer_Writer : Writer LimitedBuffer :=
  fun b p =>
    if (length p <=? room b)%nat
    then (mkLimited (room b - length p) (written b ++ p), None)
    else (b, Some (errorString "short write")).

(* ===================================================================== *)
(** ** unicode/utf8 (Go standard library) *)
(* ===================================================================== *)

Module utf8.

Definition RuneError : Z := 0xFFFD.
Definition MaxRune : Z := 0x10FFFF.

Definition maskx : Z := 0x3F.
Definition mask2 : Z := 0x1F.
Definition mask3 : Z := 0x0F.
Definition mask4 : Z := 0x07.

Definition locb : Z := 0x80.
Definition hicb : Z := 0xBF.

(** Entries of the [first] table: the low three bits are the size of the
    sequence, the high four bits index [acceptRanges]. *)
Definition xx : Z := 0xF1.
Definition as_ : Z := 0xF0.
Definition s1 : Z := 0x02.
Definition s2 : Z := 0x13.
Definition s3 : Z := 0x03.
Definition s4 : Z := 0x23.
Definition s5 : Z := 0x34.
Definition s6 : Z := 0x04.
Definition s7 : Z := 0x44.

(** [first[b]]: information about the first byte of a sequence. *)
Definition first (b : Z) : Z :=
  if b <? 0x80 then as_
  else if b <? 0xC2 then xx
  else if b <? 0xE0 then s1
  else if b =? 0xE0 then s2
  else if b <? 0xED then s3
  else if b =? 0xED then s4
  else if b <? 0xF0 then s3
  else if b =? 0xF0 then s5
  else if b <? 0xF4 then s6
  else if b =? 0xF4 then s7
  else xx.

(** [acceptRanges[i]]: the range allowed for the second byte. *)
Definition acceptRanges (i : Z) : Z * Z :=
  if i =? 1 then (0xA0, hicb)
  else if i =? 2 then (locb, 0x9F)
  else if i =? 3 then (0x90, hicb)
  else if i =? 4 then (locb, 0x8F)
  else (locb, hicb).

(** [utf8.DecodeRune(p)]: the first rune of [p] and its width in bytes;
    [(RuneError, 0)] on empty input, [(RuneError, 1)] on an invalid
    encoding. *)
Definition DecodeRune (p : list Z) : Z * nat :=
  match p with
  | [] => (RuneError, 0%nat)
  | p0 :: p' =>
    let x := first p0 in
    if as_ <=? x then
      (* mask := rune(x) << 31 >> 31: all ones exactly when bit 0 of x is set *)
      (if Z.testbit x 0 then RuneError else p0, 1%nat)
    else
      let sz := Z.to_nat (Z.land x 7) in
      let accept := acceptRanges (Z.shiftr x 4) in
      if (length p <? sz)%nat then (RuneError, 1%nat)
      else
        match p' with
        | [] => (RuneError, 1%nat)
        | b1 :: p'' =>
          if (b1 <? fst accept) || (snd accept <? b1) then (RuneError, 1%nat)
          else if (sz <=? 2)%nat then
            (Z.lor (Z.shiftl (Z.land p0 mask2) 6) (Z.land b1 maskx), 2%nat)
          else
            match p'' with
            | [] => (RuneError, 1%nat)
            | b2 :: p''' =>
              if (b2 <? locb) || (hicb <? b2) then (RuneError, 1%nat)
              else if (sz <=? 3)%nat then
                (Z.lor (Z.lor (Z.shiftl (Z.land p0 mask3) 12)
                              (Z.shiftl (Z.land b1 maskx) 6))
                       (Z.land b2 maskx), 3%nat)
              else
                match p''' with
                | [] => (RuneError, 1%nat)
                | b3 :: _ =>
                  if (b3 <? locb) || (hicb <? b3) then (RuneError, 1%nat)
                  else
                    (Z.lor (Z.lor (Z.lor (Z.shiftl (Z.land p0 mask4) 18)
                                         (Z.shiftl (Z.land b1 maskx) 12))
                                  (Z.shiftl (Z.land b2 maskx) 6))
                           (Z.land b3 maskx), 4%nat)
                end
            end
        end
  end.

Definition surrogateMin : Z := 0xD800.
Definition surrogateMax : Z := 0xDFFF.

(** [utf8.AppendRune(nil, r)]: the UTF-8 encoding of [r]; the encoding of
    [RuneError] for a surrogate or an out-of-range value. *)
Definition EncodeRune (r : Z) : list Z :=
  if (0 <=? r) && (r <=? 0x7F) then [r]
  else if (0 <=? r) && (r <=? 0x7FF) then
    [Z.lor 0xC0 (Z.shiftr r 6); Z.lor 0x80 (Z.land r maskx)]
  else if (r <? 0) || (MaxRune <? r) || ((surrogateMin <=? r) && (r <=? surrogateMax)) then
    [0xEF; 0xBF; 0xBD]
  else if r <=? 0xFFFF then
    [Z.lor 0xE0 (Z.shiftr r 12);
     Z.lor 0x80 (Z.land (Z.shiftr r 6) maskx);
     Z.lor 0x80 (Z.land r maskx)]
  else
    [Z.lor 0xF0 (Z.shiftr r 18);
     Z.lor 0x80 (Z.land (Z.shiftr r 12) maskx);
     Z.lor 0x80 (Z.land (Z.shiftr r 6) maskx);
     Z.lor 0x80 (Z.land r maskx)].

(** A Unicode scalar value: a code point that is not a surrogate. *)
Definition scalar (r : Z) : Prop :=
  0 <= r < surrogateMin \/ surrogateMax < r <= MaxRune.

End utf8.

(** The entries of [first] for three-byte sequences, each with the range
    that [acceptRanges] gives its second byte. *)
Definition three (x lo hi : Z) : Prop :=
  (x = utf8.s2 /\ lo = 0xA0 /\ hi = utf8.hicb) \/
  (x = utf8.s3 /\ lo = utf8.locb /\ hi = utf8.hicb) \/
  (x = utf8.s4 /\ lo = utf8.locb /\ hi = 0x9F).

(** The entries of [first] for four-byte sequences, each with the range
    that [acceptRanges] gives its second byte. *)
Definition four (x lo hi : Z) : Prop :=
  (x = utf8.s5 /\ lo = 0x90 /\ hi = utf8.hicb) \/
  (x = utf8.s6 /\ lo = utf8.locb /\ hi = utf8.hicb) \/
  (x = utf8.s7 /\ lo = utf8.locb /\ hi = 0x8F).

(* ===================================================================== *)
(** ** dump.go: escaping *)
(* ===================================================================== *)

Definition esc_quot : list Z := bytes "&#34;".
Definition esc_apos : list Z := bytes "&#39;".
Definition esc_amp : list Z := bytes "&amp;".
Definition esc_lt : list Z := bytes "&lt;".
Definition esc_gt : list Z := bytes "&gt;".
Definition esc_tab : list Z := bytes "&#9;".
Definition esc_nl : list Z := bytes "&#10;".
Definition esc_cr : list Z := bytes "&#13;".
(** The UTF-8 encoding of U+FFFD, the Unicode replacement character. *)
Definition esc_fffd : list Z := [0xEF; 0xBF; 0xBD].

(** [isInCharacterRange(r)]. *)
Definition isInCharacterRange (r : Z) : bool :=
  (r =? 0x09) ||
  (r =? 0x0A) ||
  (r =? 0x0D) ||
  ((0x20 <=? r) && (r <=? 0xDF77)) ||
  ((0xE000 <=? r) && (r <=? 0xFFFD)) ||
  ((0x10000 <=? r) && (r <=? 0x10FFFF)).

(** One upper-case hexadecimal digit, as a byte. *)
Definition hexDigit (d : Z) : Z :=
  if d <? 10 then 48 + d else 55 + d.

(** The digits of [fmt.Sprintf("%X", r)] for [0 <= r]. *)
Fixpoint hexDigits (fuel : nat) (r : Z) : list Z :=
  match fuel with
  | O => [hexDigit (r mod 16)]
  | S fuel' =>
    if r <? 16 then [hexDigit r]
    else hexDigits fuel' (r / 16) ++ [hexDigit (r mod 16)]
  end.

(** [[]byte(fmt.Sprintf("&#x%X;", r))] for a rune [0 <= r < 2^32]. *)
Definition hexCharRef (r : Z) : list Z :=
  bytes "&#x" ++ hexDigits 8 r ++ bytes ";".

(** The [switch r] of [escapeAttrValue]: [Some esc] when the rune is to be
    replaced by [esc] (the switch is left by [break] or falls out of a
    case), [None] when the loop [continue]s and the rune is kept. *)
Definition attrSwitch (r : Z) (width : nat) : option (list Z) :=
  if r =? 34 then Some esc_quot
  else if r =? 39 then Some esc_apos
  else if r =? 38 then Some esc_amp
  else if r =? 60 then Some esc_lt
  else if r =? 62 then Some esc_gt
  else if r =? 10 then Some esc_nl
  else if r =? 13 then Some esc_cr
  else if r =? 9 then Some esc_tab
  else if negb ((0x20 <=? r) && (r <? 0x80)) && (r <? 0xE0) then
    Some (hexCharRef r)
  else if negb (isInCharacterRange r) || ((r =? 0xFFFD) && (width =? 1)%nat) then
    Some esc_fffd
  else None.

(** The [switch r] of [escapeText]. *)
Definition textSwitch (escapeNewline : bool) (r : Z) (width : nat) : option (list Z) :=
  if r =? 34 then Some esc_quot
  else if r =? 39 then Some esc_apos
  else if r =? 38 then Some esc_amp
  else if r =? 60 then Some esc_lt
  else if r =? 62 then Some esc_gt
  else if r =? 10 then (if negb escapeNewline then None else Some esc_nl)
  else if r =? 13 then Some esc_cr
  else if negb ((r =? 9) || ((0x20 <=? r) && (r <? 0x80))) && (r <? 0xE0) then
    Some (hexCharRef r)
  else if negb (isInCharacterRange r) || ((r =? 0xFFFD) && (width =? 1)%nat) then
    Some esc_fffd
  else None.

Section Escaping.
Context {W : Type} `{Writer W}.

(** The [for i := 0; i < len(s); { ... }] loop shared by both escaping
    functions, with the trailing [w.Write(s[last:])]. [sw] is the switch.
    Every iteration advances [i] by a width of at least one, so [length s]
    units of fuel are enough. *)
Fixpoint escapeLoop (sw : Z -> nat -> option (list Z)) (fuel : nat)
         (w : W) (s : list Z) (i last : nat) : outcome (W * option error) :=
  if (i <? length s)%nat then
    match fuel with
    | O => OutOfFuel
    | S fuel' =>
      let '(r, width) := utf8.DecodeRune (drop i s) in
      let i := (i + width)%nat in
      match sw r width with
      | None => escapeLoop sw fuel' w s i last
      | Some esc =>
        (* w.Write(s[last : i-width]) *)
        match Write w (take (i - width - last) (drop last s)) with
        | (w, Some err) => Done (w, Some err)
        | (w, None) =>
          match Write w esc with
          | (w, Some err) => Done (w, Some err)
          | (w, None) => escapeLoop sw fuel' w s i i
          end
        end
      end
    end
  else
    match Write w (drop last s) with
    | (w, Some err) => Done (w, Some err)
    | (w, None) => Done (w, None)
    end.

Definition escapeAttrValue (w : W) (s : list Z) : outcome (W * option error) :=
  escapeLoop attrSwitch (length s) w s 0 0.

Definition escapeText (w : W) (s : list Z) (escapeNewline : bool)
  : outcome (W * option error) :=
  escapeLoop (textSwitch escapeNewline) (length s) w s 0 0.

End Escaping.

(* ===================================================================== *)
(** ** The node data model *)
(* ===================================================================== *)

Inductive ElementType : Type :=
| ElementNode
| AttributeNode
| TextNode
| CDATASectionNode
| EntityRefNode
| EntityNode
| ProcessingInstructionNode
| CommentNode
| DocumentNode
| DocumentTypeNode
| DocumentFragNode
| NotationNode
| HTMLDocumentNode
| DTDNode
| ElementDeclNode
| AttributeDeclNode
| EntityDeclNode
| NamespaceDeclNode
| XIncludeStartNode
| XIncludeEndNode
| NamespaceNode.

Inductive EntityType : Type :=
| InternalGeneralEntity
| ExternalGeneralParsedEntity
| ExternalGeneralUnparsedEntity
| InternalParameterEntity
| ExternalParameterEntity
| InternalPredefinedEntity.

(** [DocumentStandaloneType]. *)
Definition StandaloneInvalidValue : Z := -99.
Definition StandaloneExplicitYes : Z := 1.
Definition StandaloneExplicitNo : Z := 0.
Definition StandaloneNoXMLDecl : Z := -1.
Definition StandaloneImplicitNo : Z := -2.

Definition XMLTextNoEnc : string := "textnoenc".

(** A pointer to a node: its index in the heap. [None] is Go's [nil]. *)
Abbreviation ptr := nat.

(** [docnode]: the tree linkage shared by every node. The [etype] field is
    fixed by the Go type of the node and is read off the constructor of
    [object] below. *)
Record docnode : Type := mkDocnode {
  name : string;
  firstChild : option ptr;
  lastChild : option ptr;
  parent : option ptr;
  next : option ptr;
  prev : option ptr;
  doc : option ptr
}.

Record Namespace : Type := mkNamespace {
  href : string;
  ns_prefix : string
}.

(** One attribute of an element, by what [Name()] and [Value()] return. *)
Record Attribute : Type := mkAttribute {
  attr_name : string;
  attr_value : string
}.

(** [node]. The chain [properties -> NextSibling() -> ...] of attributes is
    kept as the list of its members, head first. *)
Record node : Type := mkNode {
  base : docnode;
  content : list Z;
  properties : list Attribute;
  ns : option Namespace
}.

(** [Entity]; its own [content] string hides the one of the embedded
    [node]. *)
Record Entity : Type := mkEntity {
  ent_name : string;
  orig : string;
  ent_content : string;
  entityType : EntityType;
  externalID : string;
  systemID : string;
  uri : string;
  owner : bool;
  checked : Z
}.

(** [DTD]: the two entity tables. *)
Record DTD : Type := mkDTD {
  entities : gmap string Entity;
  pentities : gmap string Entity
}.

Record Document : Type := mkDocument {
  dbase : docnode;
  version : string;
  encoding : string;
  standalone : Z;
  intSubset : option DTD;
  extSubset : option DTD
}.

(** The objects of the heap, one constructor per Go type. *)
Inductive object : Type :=
| ODocument (d : Document)
| OElement (n : node)
| OText (n : node)
| OComment (n : node)
| OEntityRef (n : node).

(** The heap: the objects allocated so far, addressed by position. *)
Abbreviation heap := (list object).

(** [n.Type()]. *)
Definition Type_ (o : object) : ElementType :=
  match o with
  | ODocument _ => DocumentNode
  | OElement _ => ElementNode
  | OText _ => TextNode
  | OComment _ => CommentNode
  | OEntityRef _ => EntityRefNode
  end.

Definition docnodeOf (o : object) : docnode :=
  match o with
  | ODocument d => dbase d
  | OElement n | OText n | OComment n | OEntityRef n => base n
  end.

Definition mapDocnode (f : docnode -> docnode) (o : object) : object :=
  match o with
  | ODocument d =>
    ODocument (mkDocument (f (dbase d)) (version d) (encoding d) (standalone d)
                          (intSubset d) (extSubset d))
  | OElement n => OElement (mkNode (f (base n)) (content n) (properties n) (ns n))
  | OText n => OText (mkNode (f (base n)) (content n) (properties n) (ns n))
  | OComment n => OComment (mkNode (f (base n)) (content n) (properties n) (ns n))
  | OEntityRef n => OEntityRef (mkNode (f (base n)) (content n) (properties n) (ns n))
  end.

(** Modelled from the spec: the bodies of the getters [Name], [FirstChild],
    [LastChild], [NextSibling], [Parent] and [Content] of the [Node]
    interface are missing from the sources; each returns the field it is
    named after. *)
Definition Name (o : object) : string := name (docnodeOf o).
Definition FirstChild (o : object) : option ptr := firstChild (docnodeOf o).
Definition LastChild (o : object) : option ptr := lastChild (docnodeOf o).
Definition NextSibling (o : object) : option ptr := next (docnodeOf o).
Definition Parent (o : object) : option ptr := parent (docnodeOf o).
Definition Content (o : object) : list Z :=
  match o with
  | ODocument _ => []
  | OElement n | OText n | OComment n | OEntityRef n => content n
  end.

Definition setFirstChild (c : option ptr) (d : docnode) : docnode :=
  mkDocnode (name d) c (lastChild d) (parent d) (next d) (prev d) (doc d).
Definition setLastChild (c : option ptr) (d : docnode) : docnode :=
  mkDocnode (name d) (firstChild d) c (parent d) (next d) (prev d) (doc d).
Definition SetParent (c : option ptr) (d : docnode) : docnode :=
  mkDocnode (name d) (firstChild d) (lastChild d) c (next d) (prev d) (doc d).
Definition SetNextSibling (c : option ptr) (d : docnode) : docnode :=
  mkDocnode (name d) (firstChild d) (lastChild d) (parent d) c (prev d) (doc d).
Definition SetPrevSibling (c : option ptr) (d : docnode) : docnode :=
  mkDocnode (name d) (firstChild d) (lastChild d) (parent d) (next d) c (doc d).

Definition setStandalone (v : Z) (d : Document) : Document :=
  mkDocument (dbase d) (version d) (encoding d) v (intSubset d) (extSubset d).

(** Following a pointer; a pointer outside the heap behaves like [nil]. *)
Definition deref (h : heap) (p : ptr) : outcome object :=
  match h !! p with
  | Some o => Done o
  | None => Panic "invalid memory address or nil pointer dereference"
  end.

(** Following a [*Document]. *)
Definition derefDocument (h : heap) (p : ptr) : outcome Document :=
  o ← deref h p;
  match o with
  | ODocument d => Done d
  | _ => Panic "interface conversion: not a *Document"
  end.

(** Allocation of a fresh object: it goes to the end of the heap. *)
Definition alloc (h : heap) (o : object) : heap * ptr := (h ++ [o], length h).

Definition ErrNilNode : error := errorString "nil node".
Definition ErrInvalidOperation : error := errorString "operation cannot be performed".
Definition ErrDuplicateAttribute : error := errorString "duplicate attribute".

Definition emptyDocnode (nm : string) (d : option ptr) : docnode :=
  mkDocnode nm None None None None None d.

(** Modelled from the spec: [Element.LocalName], [Element.Prefix] and
    [Element.URI] are missing from the sources. An element has a local name
    and an optional namespace, whose prefix and URI are empty when absent. *)
Definition LocalName (n : node) : string := name (base n).
Definition Prefix (n : node) : string :=
  match ns n with Some s => ns_prefix s | None => "" end.
Definition URI (n : node) : string :=
  match ns n with Some s => href s | None => "" end.

(* ===================================================================== *)
(** ** Construction primitives of the tree model *)
(* ===================================================================== *)

(** Modelled from the spec: [NewDocument] is missing from the sources. It
    allocates a new empty Document with the given version, encoding and
    standalone values. *)
Definition NewDocument (h : heap) (ver enc : string) (sa : Z) : heap * ptr :=
  alloc h (ODocument (mkDocument (emptyDocnode "(document)" None) ver enc sa
                                 (Some (mkDTD ∅ ∅)) None)).

(** Modelled from the spec: [Document.CreateElement] is missing from the
    sources. It allocates the node, stamps its owning document and returns
    it, without attaching it. *)
Definition CreateElement (h : heap) (d : option ptr) (localname : string)
  : outcome (heap * (ptr * option error)) :=
  let '(h, e) := alloc h (OElement (mkNode (emptyDocnode localname d) [] [] None)) in
  Done (h, (e, None)).

(** Modelled from the spec: [Document.CreateComment] is missing from the
    sources; same contract as [CreateElement]. *)
Definition CreateComment (h : heap) (d : option ptr) (data : list Z)
  : outcome (heap * (ptr * option error)) :=
  let '(h, e) := alloc h (OComment (mkNode (emptyDocnode "(comment)" d) data [] None)) in
  Done (h, (e, None)).

(** Modelled from the spec: [Node.AddChild] is missing from the sources. It
    appends [c] to the children of [p], keeping the parent, first-child,
    last-child and sibling links consistent. *)
Definition AddChild (h : heap) (p c : ptr) : outcome (heap * option error) :=
  po ← deref h p;
  _ ← deref h c;
  let h := alter (mapDocnode (SetParent (Some p))) c h in
  match LastChild po with
  | None =>
    let h := alter (mapDocnode (setFirstChild (Some c))) p h in
    let h := alter (mapDocnode (setLastChild (Some c))) p h in
    Done (h, None)
  | Some l =>
    let h := alter (mapDocnode (SetNextSibling (Some c))) l h in
    let h := alter (mapDocnode (SetPrevSibling (Some l))) c h in
    let h := alter (mapDocnode (setLastChild (Some c))) p h in
    Done (h, None)
  end.

(** Modelled from the spec: [Node.AddContent] is missing from the sources.
    On an element the bytes become a new Text child; on a text node they are
    appended to its content; other nodes bear no text and reject it, leaving
    the tree as it is. *)
Definition AddContent (h : heap) (p : ptr) (data : list Z)
  : outcome (heap * option error) :=
  o ← deref h p;
  match o with
  | OElement n =>
    let '(h, t) := alloc h (OText (mkNode (emptyDocnode "(text)" (doc (base n)))
                                          data [] None)) in
    AddChild h p t
  | OText n =>
    Done (<[p := OText (mkNode (base n) (content n ++ data) (properties n) (ns n))]> h,
          None)
  | _ => Done (h, Some ErrInvalidOperation)
  end.

(** Modelled from the spec: [Element.SetAttribute] is missing from the
    sources. It fails with a duplicate-attribute error when the name is
    already on the element (the first value is retained) and otherwise
    appends the attribute at the end of the chain. *)
Definition SetAttribute (h : heap) (e : ptr) (nm value : string)
  : outcome (heap * option error) :=
  o ← deref h e;
  match o with
  | OElement n =>
    if existsb (fun a => String.eqb (attr_name a) nm) (properties n)
    then Done (h, Some ErrDuplicateAttribute)
    else Done (<[e := OElement (mkNode (base n) (content n)
                                       (properties n ++ [mkAttribute nm value])
                                       (ns n))]> h, None)
  | _ => Panic "interface conversion: not an *Element"
  end.

(* ===================================================================== *)
(** ** Entities *)
(* ===================================================================== *)

(** Modelled from the spec: [newEntity] is missing from the sources; its
    arguments are the name, the type, the public and system identifiers, the
    content and the original text. *)
Definition newEntity (nm : string) (typ : EntityType)
           (publicID sysID cont og : string) : Entity :=
  mkEntity nm og cont typ publicID sysID "" false 0.

Definition EntityLT : Entity :=
  newEntity "lt" InternalPredefinedEntity "" "" "<" "&lt;".
Definition EntityGT : Entity :=
  newEntity "gt" InternalPredefinedEntity "" "" ">" "&gt;".
Definition EntityAmpersand : Entity :=
  newEntity "amp" InternalPredefinedEntity "" "" "&" "&amp;".
Definition EntityApostrophe : Entity :=
  newEntity "apos" InternalPredefinedEntity "" "" "'" "&apos;".
Definition EntityQuote : Entity :=
  newEntity "quot" InternalPredefinedEntity "" "" dquote "&quot;".

(** Modelled from the spec: [resolvePredefinedEntity] is missing from the
    sources. It consults the fixed table of the five predefined entities. *)
Definition resolvePredefinedEntity (nm : string) : option Entity :=
  if String.eqb nm "lt" then Some EntityLT
  else if String.eqb nm "gt" then Some EntityGT
  else if String.eqb nm "amp" then Some EntityAmpersand
  else if String.eqb nm "apos" then Some EntityApostrophe
  else if String.eqb nm "quot" then Some EntityQuote
  else None.

(** A lookup in one DTD subset ([nil] subset: a miss). *)
Definition LookupEntity (d : option DTD) (nm : string) : option Entity :=
  match d with
  | Some t => entities t !! nm
  | None => None
  end.

(** Modelled from the spec: [Document.GetEntity] is missing from the
    sources. The internal subset is consulted first; the external subset is
    visible only while the document is not marked standalone. *)
Definition Document_GetEntity (d : Document) (nm : string) : option Entity :=
  match LookupEntity (intSubset d) nm with
  | Some e => Some e
  | None =>
    if negb (standalone d =? 1) then LookupEntity (extSubset d) nm else None
  end.

(* ===================================================================== *)
(** ** The SAX tree builder *)
(* ===================================================================== *)

(** The fields of [parserCtx] that the tree builder reads or writes.
    [inSubset] is 0 outside a DTD, 1 in the internal and 2 in the external
    subset. *)
Record parserCtx : Type := mkParserCtx {
  ctx_version : string;
  ctx_encoding : string;
  ctx_standalone : Z;
  inSubset : Z;
  keepBlanks : bool;
  ctx_doc : option ptr
}.

Definition setCtxDoc (d : option ptr) (c : parserCtx) : parserCtx :=
  mkParserCtx (ctx_version c) (ctx_encoding c) (ctx_standalone c)
              (inSubset c) (keepBlanks c) d.

Record TreeBuilder : Type := mkTreeBuilder {
  t_doc : option ptr;
  t_node : option ptr
}.

(** A [sax.Attribute] of an element-start event. *)
Record saxAttribute : Type := mkSaxAttribute {
  sax_name : string;
  sax_value : string
}.

(** Everything a handler can touch: the heap of nodes, the receiver [t] and
    the context [ctx] (the [sax.Context] is always a [*parserCtx]). *)
Record world : Type := mkWorld {
  mem : heap;
  t : TreeBuilder;
  ctx : parserCtx
}.

Definition setMem (h : heap) (st : world) : world := mkWorld h (t st) (ctx st).

(** The empty builder [&TreeBuilder{}]. *)
Definition emptyTreeBuilder : TreeBuilder := mkTreeBuilder None None.

Module TreeBuilder.

Definition StartDocument (st : world) : outcome (world * option error) :=
  let c := ctx st in
  let '(h, d) := NewDocument (mem st) (ctx_version c) (ctx_encoding c)
                             (ctx_standalone c) in
  Done (mkWorld h (mkTreeBuilder (Some d) (t_node (t st))) c, None).

Definition EndDocument (st : world) : outcome (world * option error) :=
  (* ctx.doc = t.doc; t.doc = nil *)
  Done (mkWorld (mem st)
                (mkTreeBuilder None (t_node (t st)))
                (setCtxDoc (t_doc (t st)) (ctx st)), None).

(** [for _, attr := range attrs { e.SetAttribute(attr.Name(), attr.Value()) }]:
    the error of every call is dropped. *)
Fixpoint setAttributes (h : heap) (e : ptr) (attrs : list saxAttribute)
  : outcome heap :=
  match attrs with
  | [] => Done h
  | attr :: attrs' =>
    '(h, _) ← SetAttribute h e (sax_name attr) (sax_value attr);
    setAttributes h e attrs'
  end.

Definition StartElement (st : world) (localname prefix uri : string)
           (namespaces : list Namespace) (attrs : list saxAttribute)
  : outcome (world * option error) :=
  '(h, (e, err)) ← CreateElement (mem st) (t_doc (t st)) localname;
  match err with
  | Some err => Done (setMem h st, Some err)
  | None =>
    h ← setAttributes h e attrs;
    '(h, _) ←
      match t_node (t st) with
      | None =>
        match t_doc (t st) with
        | Some d => AddChild h d e
        | None => Panic "invalid memory address or nil pointer dereference"
        end
      | Some n => AddChild h n e
      end;
    Done (mkWorld h (mkTreeBuilder (t_doc (t st)) (Some e)) (ctx st), None)
  end.

Definition EndElement (st : world) (localname prefix uri : string)
  : outcome (world * option error) :=
  match t_node (t st) with
  | None => Done (st, None)
  | Some n =>
    o ← deref (mem st) n;
    match o with
    | OElement e =>
      if String.eqb (LocalName e) localname
         && String.eqb (Prefix e) prefix
         && String.eqb (URI e) uri
      then Done (mkWorld (mem st) (mkTreeBuilder (t_doc (t st)) (Parent o)) (ctx st),
                 None)
      else Done (st, None)
    | _ => Done (st, None)
    end
  end.

Definition Characters (st : world) (data : list Z)
  : outcome (world * option error) :=
  match t_node (t st) with
  | None => Done (st, Some (errorString "text content placed in wrong location"))
  | Some n =>
    '(h, err) ← AddContent (mem st) n data;
    Done (setMem h st, err)
  end.

Definition Comment (st : world) (data : list Z)
  : outcome (world * option error) :=
  match t_node (t st) with
  | None => Done (st, Some (errorString "comment placed in wrong location"))
  | Some n =>
    '(h, (e, err)) ← CreateComment (mem st) (t_doc (t st)) data;
    match err with
    | Some err => Done (setMem h st, Some err)
    | None =>
      '(h, _) ← AddChild h n e;
      Done (setMem h st, None)
    end
  end.

Definition IgnorableWhitespace (st : world) (data : list Z)
  : outcome (world * option error) :=
  if keepBlanks (ctx st) then Characters st data else Done (st, None).

(** The message of the error of a standalone document that needs its
    external subset. *)
Definition standaloneError (nm : string) : error :=
  errorString ("Entity(" +:+ nm +:+
               ") document marked standalone but requires eternal subset").

(** [ctx.doc.standalone = v]. *)
Definition writeStandalone (h : heap) (dp : ptr) (v : Z) : heap :=
  alter (fun o => match o with
                  | ODocument d => ODocument (setStandalone v d)
                  | _ => o
                  end) dp h.

(** [GetEntity] returns the entity (or [nil]) and the error (or [nil]). *)
Definition GetEntity (st : world) (nm : string)
  : outcome (world * (option Entity * option error)) :=
  let c := ctx st in
  match (if inSubset c =? 0 then resolvePredefinedEntity nm else None) with
  | Some ret => Done (st, (Some ret, None))
  | None =>
    match ctx_doc c with
    | None =>
      (* ctx.doc == nil: the lookup is made on the nil document *)
      Panic "invalid memory address or nil pointer dereference"
    | Some dp =>
      d ← derefDocument (mem st) dp;
      if negb (standalone d =? 1) then
        Done (st, (Document_GetEntity d nm, None))
      else if inSubset c =? 2 then
        let h := writeStandalone (mem st) dp 0 in
        d0 ← derefDocument h dp;
        let ret := Document_GetEntity d0 nm in
        let h := writeStandalone h dp 1 in
        Done (setMem h st, (ret, None))
      else
        match Document_GetEntity d nm with
        | Some ret => Done (st, (Some ret, None))
        | None =>
          let h := writeStandalone (mem st) dp 0 in
          d0 ← derefDocument h dp;
          match Document_GetEntity d0 nm with
          | None => Done (setMem h st, (None, Some (standaloneError nm)))
          | Some ret =>
            let h := writeStandalone h dp 1 in
            Done (setMem h st, (Some ret, None))
          end
        end
    end
  end.

End TreeBuilder.

(* ===================================================================== *)
(** ** dump.go: the Dumper *)
(* ===================================================================== *)

Section Dumper.
Context {W : Type} `{Writer W}.

(** A write whose result is dropped: [io.WriteString(out, s)] as a
    statement. *)
Definition put (out : W) (s : string) : W := fst (WriteString out s).
Definition putBytes (out : W) (p : list Z) : W := fst (Write out p).

Definition dumpDocContent (out : W) (n : object) : outcome (W * option error) :=
  match n with
  | ODocument d =>
    let out := put out ("<?xml version=" +:+ dquote) in
    let ver := if String.eqb (version d) "" then "1.0"%string else version d in
    let out := put out (ver +:+ dquote) in
    let out :=
      if negb (String.eqb (encoding d) "")
      then put out (" encoding=" +:+ dquote +:+ encoding d +:+ dquote)
      else out in
    let out :=
      if standalone d =? StandaloneExplicitNo
      then put out (" standalone=" +:+ dquote +:+ "no" +:+ dquote)
      else if standalone d =? StandaloneExplicitYes
      then put out (" standalone=" +:+ dquote +:+ "yes" +:+ dquote)
      else out in
    let out := put out ("?>" +:+ String (ascii_of_nat 10) EmptyString) in
    Done (out, None)
  | _ => Panic "interface conversion: not a *Document"
  end.

(** The loop over the attribute chain of an element. *)
Fixpoint dumpAttributes (out : W) (attrs : list Attribute) : outcome W :=
  match attrs with
  | [] => Done out
  | attr :: attrs' =>
    let out := put out (" " +:+ attr_name attr +:+ "=" +:+ dquote) in
    '(out, _) ← escapeAttrValue out (bytes (attr_value attr));
    let out := put out dquote in
    dumpAttributes out attrs'
  end.

(** [DumpNode], and the loop
    [for ; child != nil; child = child.NextSibling() { DumpNode(out, child) }].
    One unit of fuel is spent per call and per iteration. *)
Fixpoint DumpNode (fuel : nat) (h : heap) (out : W) (n : ptr)
  : outcome (W * option error) :=
  match fuel with
  | O => OutOfFuel
  | S fuel' =>
    o ← deref h n;
    match Type_ o with
    | DocumentNode => dumpDocContent out o
    | CommentNode =>
      let out := put out "<!--" in
      let out := putBytes out (Content o) in
      let out := put out ("-->" +:+ String (ascii_of_nat 10) EmptyString) in
      Done (out, None)
    | EntityRefNode =>
      let out := put out "&" in
      let out := put out (Name o) in
      let out := put out ";" in
      Done (out, None)
    | TextNode =>
      let c := Content o in
      if bool_decide (c = bytes XMLTextNoEnc) then Panic "unimplemented"
      else
        '(out, _) ← escapeText out c false;
        Done (out, None)
    | _ =>
      (* some sort of an element *)
      let nm :=
        match o with
        | OElement e =>
          if negb (String.eqb (Prefix e) "") then Prefix e +:+ ":" +:+ Name o
          else Name o
        | _ => Name o
        end in
      let out := put out "<" in
      let out := put out nm in
      r ← match o with
          | OElement e =>
            out ← dumpAttributes out (properties e);
            match FirstChild o with
            | None => Done (put out "/>", true)
            | Some _ => Done (out, false)
            end
          | _ => Done (out, false)
          end;
      let '(out, returned) := r in
      if (returned : bool) then Done (out, None)
      else
        let out := put out ">" in
        '(out, err) ← dumpSiblings fuel' h out (FirstChild o);
        match err with
        | Some err => Done (out, Some err)
        | None =>
          let out := put out "</" in
          let out := put out nm in
          let out := put out ">" in
          Done (out, None)
        end
    end
  end
with dumpSiblings (fuel : nat) (h : heap) (out : W) (child : option ptr)
  : outcome (W * option error) :=
  match fuel with
  | O => OutOfFuel
  | S fuel' =>
    match child with
    | None => Done (out, None)
    | Some c =>
      '(out, err) ← DumpNode fuel' h out c;
      match err with
      | Some err => Done (out, Some err)
      | None =>
        o ← deref h c;
        dumpSiblings fuel' h out (NextSibling o)
      end
    end
  end.

Definition DumpDoc (fuel : nat) (h : heap) (out : W) (d : ptr)
  : outcome (W * option error) :=
  '(out, err) ← DumpNode fuel h out d;
  match err with
  | Some err => Done (out, Some err)
  | None =>
    o ← deref h d;
    '(out, err) ← dumpSiblings fuel h out (FirstChild o);
    match err with
    | Some err => Done (out, Some err)
    | None =>
      let out := put out (String (ascii_of_nat 10) EmptyString) in
      Done (out, None)
    end
  end.

End Dumper.

(* ===================================================================== *)
(** ** The event source *)
(* ===================================================================== *)

(** The notifications of the event contract that reach the tree. *)
Inductive event : Type :=
| EvStartDocument
| EvEndDocument
| EvStartElement (localname prefix uri : string)
                 (namespaces : list Namespace) (attrs : list saxAttribute)
| EvEndElement (localname prefix uri : string)
| EvCharacters (data : list Z)
| EvIgnorableWhitespace (data : list Z)
| EvComment (data : list Z).

Definition notify (st : world) (ev : event) : outcome (world * option error) :=
  match ev with
  | EvStartDocument => TreeBuilder.StartDocument st
  | EvEndDocument => TreeBuilder.EndDocument st
  | EvStartElement l p u nss attrs => TreeBuilder.StartElement st l p u nss attrs
  | EvEndElement l p u => TreeBuilder.EndElement st l p u
  | EvCharacters data => TreeBuilder.Characters st data
  | EvIgnorableWhitespace data => TreeBuilder.IgnorableWhitespace st data
  | EvComment data => TreeBuilder.Comment st data
  end.

(** The tokenizer delivers the events in document order and treats a
    failed notification as fatal. *)
Fixpoint feed (st : world) (evs : list event) : outcome (world * option error) :=
  match evs with
  | [] => Done (st, None)
  | ev :: evs' =>
    '(st, err) ← notify st ev;
    match err with
    | Some err => Done (st, Some err)
    | None => feed st evs'
    end
  end.

(** A fresh parser context and an empty builder over an empty heap. *)
Definition freshWorld (ver enc : string) (sa : Z) : world :=
  mkWorld [] emptyTreeBuilder (mkParserCtx ver enc sa 0 false None).

(** The line feed, as a string. *)
Definition nl : string := String (ascii_of_nat 10) EmptyString.

(* ===================================================================== *)
(** ** Statements of the specification and sample states *)
(* ===================================================================== *)

(** The event sequence of the example. *)
Definition rootHiEvents : list event :=
  [EvStartDocument;
   EvStartElement "root" "" "" [] [];
   EvCharacters (bytes "hi");
   EvEndElement "root" "" "";
   EvEndDocument].

(** The expected serialization, [<?xml version="1.0"?>\n<root>hi</root>\n]. *)
Definition rootHiXML : list Z :=
  bytes ("<?xml version=" +:+ dquote +:+ "1.0" +:+ dquote +:+ "?>" +:+ nl
         +:+ "<root>hi</root>" +:+ nl).

(** A comment node with content [c], alone in the heap. *)
Definition commentHeap (c : list Z) : heap :=
  [OComment (mkNode (emptyDocnode "(comment)" None) c [] None)].

(** A text node with content [c], alone in the heap. *)
Definition textHeap (c : list Z) : heap :=
  [OText (mkNode (emptyDocnode "(text)" None) c [] None)].

(** A builder whose cursor is on the element [a:item] (namespace uri [urn:a]),
    child of the element at index 0. *)
Definition openItemWorld : world :=
  mkWorld
    [OElement (mkNode (mkDocnode "top" (Some 1%nat) (Some 1%nat) None None None None)
                      [] [] None);
     OElement (mkNode (mkDocnode "item" None None (Some 0%nat) None None None)
                      [] [] (Some (mkNamespace "urn:a" "a")))]
    (mkTreeBuilder None (Some 1%nat))
    (mkParserCtx "1.0" "" StandaloneNoXMLDecl 0 false None).

(** A context with no document attached. *)
Definition noDocWorld : world := freshWorld "1.0" "" StandaloneNoXMLDecl.

(** The tables that [GetEntity] goes through outside any DTD subset, in its
    order: the predefined table first (the guard on [ctx.inSubset == 0]),
    then the tables of the document [d] ([ctx.doc.GetEntity]). *)
Definition lookupGeneralEntity (d : Document) (nm : string) : option Entity :=
  match resolvePredefinedEntity nm with
  | Some ret => Some ret
  | None => Document_GetEntity d nm
  end.


(** A standalone document with empty entity tables, attached to a context
    that is outside any DTD subset. *)
Definition standaloneDoc : Document :=
  mkDocument (emptyDocnode "(document)" None) "1.0" "" StandaloneExplicitYes
             (Some (mkDTD ∅ ∅)) None.
Definition standaloneWorld : world :=
  mkWorld [ODocument standaloneDoc] emptyTreeBuilder
          (mkParserCtx "1.0" "" StandaloneExplicitYes 0 false (Some 0%nat)).


(** An entity declared in the external subset only. *)
Definition extEntity : Entity :=
  newEntity "copy" InternalGeneralEntity "" "" "(c)" "(c)".
Definition extOnlyDoc : Document :=
  mkDocument (emptyDocnode "(document)" None) "1.0" "" StandaloneExplicitYes
             (Some (mkDTD ∅ ∅)) (Some (mkDTD {[ "copy"%string := extEntity ]} ∅)).
Definition extOnlyWorld : world :=
  mkWorld [ODocument extOnlyDoc] emptyTreeBuilder
          (mkParserCtx "1.0" "" StandaloneExplicitYes 0 false (Some 0%nat)).

(** The attributes that remain when every rejected one is dropped: the first
    occurrence of each name, in order, after those already present. *)
Fixpoint firstWins (present : list Attribute) (attrs : list saxAttribute)
  : list Attribute :=
  match attrs with
  | [] => present
  | a :: attrs' =>
    if existsb (fun b => String.eqb (attr_name b) (sax_name a)) present
    then firstWins present attrs'
    else firstWins (present ++ [mkAttribute (sax_name a) (sax_value a)]) attrs'
  end.

(** The attribute chain of an object: elements only have one. *)
Definition attributesOf (o : object) : option (list Attribute) :=
  match o with
  | OElement n => Some (properties n)
  | _ => None
  end.

(** A builder inside a started document, with no element open yet. *)
Definition startedWorld : world :=
  mkWorld [ODocument (mkDocument (emptyDocnode "(document)" None) "1.0" ""
                                 StandaloneNoXMLDecl (Some (mkDTD ∅ ∅)) None)]
          (mkTreeBuilder (Some 0%nat) None)
          (mkParserCtx "1.0" "" StandaloneNoXMLDecl 0 false None).

(** An attribute list with the name [id] twice. *)
Definition duplicateAttrs : list saxAttribute :=
  [mkSaxAttribute "id" "1"; mkSaxAttribute "class" "c"; mkSaxAttribute "id" "2"].

(** The reference for the escaping loop: the bytes are cut into values by
    [DecodeRune], and each value contributes its replacement, or its own
    bytes when the switch keeps it. *)
Fixpoint escapeRunes (sw : Z -> nat -> option (list Z)) (fuel : nat) (p : list Z)
  : list Z :=
  match fuel with
  | O => []
  | S fuel' =>
    match p with
    | [] => []
    | _ :: _ =>
      let '(r, width) := utf8.DecodeRune p in
      match sw r width with
      | Some esc => esc
      | None => take width p
      end ++ escapeRunes sw fuel' (drop width p)
    end
  end.

(** The two contexts of the escaping table. *)
Inductive escapeContext : Type :=
| AttributeValue
| TextContent.

(** The characters the table lists as permitted in XML. *)
Definition xmlPermitted (r : Z) : bool :=
  (r =? 0x09) || (r =? 0x0A) || (r =? 0x0D) ||
  ((0x20 <=? r) && (r <=? 0xDF77)) ||
  ((0xE000 <=? r) && (r <=? 0xFFFD)) ||
  ((0x10000 <=? r) && (r <=? 0x10FFFF)).

(** The escaping table as the specification words it, for a value [r]
    decoded from [width] bytes: [Some esc] when the value is replaced by
    [esc], [None] when it passes through. The rows are read in the order of
    the table and the first one that applies decides. The upper end of the
    band of hexadecimal references, [hexEnd], is a parameter: the table
    reads [0xDF]. *)
Definition specEscapingTable (hexEnd : Z) (c : escapeContext) (r : Z) (width : nat)
  : option (list Z) :=
  if r =? 0x22 then Some (bytes "&#34;")
  else if r =? 0x27 then Some (bytes "&#39;")
  else if r =? 0x26 then Some (bytes "&amp;")
  else if r =? 0x3C then Some (bytes "&lt;")
  else if r =? 0x3E then Some (bytes "&gt;")
  else if r =? 0x09 then
    match c with AttributeValue => Some (bytes "&#9;") | TextContent => None end
  else if r =? 0x0A then
    match c with AttributeValue => Some (bytes "&#10;") | TextContent => None end
  else if r =? 0x0D then Some (bytes "&#13;")
  else if (r <? 0x20) || ((0x80 <=? r) && (r <? hexEnd)) then
    Some (bytes "&#x" ++ hexDigits 8 r ++ bytes ";")
  else if negb (xmlPermitted r) || ((r =? 0xFFFD) && (width =? 1)%nat) then
    Some [0xEF; 0xBF; 0xBD]
  else None.

(** What the table prescribes for the bytes [s] of one value [r]. *)
Definition specEscaped (hexEnd : Z) (c : escapeContext) (r : Z) (s : list Z) : list Z :=
  match specEscapingTable hexEnd c r (length s) with
  | Some esc => esc
  | None => s
  end.

(** The claim at one scalar value, for the table with hexadecimal band
    [[0x80, hexEnd)]: both escaping functions write, after what the buffer
    holds, exactly what the table prescribes for the encoding of [r]. *)
Definition escapesAsTable (hexEnd : Z) (out : Buffer) (r : Z) : Prop :=
  escapeAttrValue out (utf8.EncodeRune r)
  = Done (out ++ specEscaped hexEnd AttributeValue r (utf8.EncodeRune r), None) /\
  escapeText out (utf8.EncodeRune r) false
  = Done (out ++ specEscaped hexEnd TextContent r (utf8.EncodeRune r), None).

(* ===================================================================== *)
(** ** Documents as trees *)
(* ===================================================================== *)

(** The content that [DumpNode] serializes without falling into its
    unimplemented branch, as a tree: elements with their namespace,
    attribute chain and children, texts, comments and entity references. *)
Inductive xml : Type :=
| XElement (nm : string) (nsp : option Namespace) (attrs : list Attribute)
           (children : list xml)
| XText (c : list Z)
| XComment (c : list Z)
| XEntityRef (nm : string).

(** The name written in the tags of an element: [prefix:name] when the
    element has a non-empty prefix. *)
Definition qualifiedName (nm : string) (nsp : option Namespace) : string :=
  match nsp with
  | Some s => if negb (String.eqb (ns_prefix s) "") then ns_prefix s +:+ ":" +:+ nm else nm
  | None => nm
  end.

(** One attribute inside a start tag. *)
Definition renderAttribute (a : Attribute) : list Z :=
  bytes (" " +:+ attr_name a +:+ "=" +:+ dquote)
  ++ escapeRunes attrSwitch (length (bytes (attr_value a))) (bytes (attr_value a))
  ++ bytes dquote.

(** The text of a tree. *)
Fixpoint render (x : xml) : list Z :=
  match x with
  | XElement nm nsp attrs children =>
    bytes "<" ++ bytes (qualifiedName nm nsp) ++ flat_map renderAttribute attrs ++
    match children with
    | [] => bytes "/>"
    | _ :: _ =>
      bytes ">" ++ flat_map render children ++
      bytes "</" ++ bytes (qualifiedName nm nsp) ++ bytes ">"
    end
  | XText c => escapeRunes (textSwitch false) (length c) c
  | XComment c => bytes "<!--" ++ c ++ bytes "-->" ++ [10]
  | XEntityRef nm => bytes "&" ++ bytes nm ++ bytes ";"
  end.

(** [repr h p x]: the node at [p] and the nodes reached from it through the
    first-child and next-sibling links lay out the tree [x] in the heap [h];
    [reprs h c xs]: the sibling chain that starts at [c] lays out [xs]. *)
Inductive repr (h : heap) : ptr -> xml -> Prop :=
| repr_element p n xs :
    h !! p = Some (OElement n) ->
    reprs h (firstChild (base n)) xs ->
    repr h p (XElement (name (base n)) (ns n) (properties n) xs)
| repr_text p n :
    h !! p = Some (OText n) ->
    content n <> bytes XMLTextNoEnc ->
    repr h p (XText (content n))
| repr_comment p n :
    h !! p = Some (OComment n) ->
    repr h p (XComment (content n))
| repr_entityRef p n :
    h !! p = Some (OEntityRef n) ->
    repr h p (XEntityRef (name (base n)))
with reprs (h : heap) : option ptr -> list xml -> Prop :=
| reprs_nil : reprs h None []
| reprs_cons p o x xs :
    h !! p = Some o ->
    repr h p x ->
    reprs h (NextSibling o) xs ->
    reprs h (Some p) (x :: xs).

Scheme repr_mut := Minimality for repr Sort Prop
  with reprs_mut := Minimality for reprs Sort Prop.
Combined Scheme repr_reprs_mut from repr_mut, reprs_mut.

(** The prologue written for a document. *)
Definition renderProlog (d : Document) : list Z :=
  bytes ("<?xml version=" +:+ dquote)
  ++ bytes ((if String.eqb (version d) "" then "1.0"%string else version d) +:+ dquote)
  ++ (if String.eqb (encoding d) "" then []
      else bytes (" encoding=" +:+ dquote +:+ encoding d +:+ dquote))
  ++ (if standalone d =? StandaloneExplicitNo
      then bytes (" standalone=" +:+ dquote +:+ "no" +:+ dquote)
      else if standalone d =? StandaloneExplicitYes
      then bytes (" standalone=" +:+ dquote +:+ "yes" +:+ dquote)
      else [])
  ++ bytes ("?>" +:+ nl).

(** The heap built by the events of [rootHiEvents]: the document, its root
    element and the text of the root. *)
Definition rootHiHeap : heap :=
  [ODocument (mkDocument (mkDocnode "(document)" (Some 1%nat) (Some 1%nat)
                                    None None None None)
                         "1.0" "" StandaloneNoXMLDecl (Some (mkDTD ∅ ∅)) None);
   OElement (mkNode (mkDocnode "root" (Some 2%nat) (Some 2%nat) (Some 0%nat)
                               None None (Some 0%nat)) [] [] None);
   OText (mkNode (mkDocnode "(text)" None None (Some 1%nat) None None (Some 0%nat))
                 (bytes "hi") [] None)].

(** A context inside the external subset of the standalone document
    [extOnlyDoc]. *)
Definition extSubsetWorld : world :=
  mkWorld [ODocument extOnlyDoc] emptyTreeBuilder
          (mkParserCtx "1.0" "" StandaloneExplicitYes 2 false (Some 0%nat)).

(** A document that is not marked standalone, with one entity in its
    external subset, attached to a context outside any DTD subset. *)
Definition plainDoc : Document :=
  mkDocument (emptyDocnode "(document)" None) "1.0" "" StandaloneNoXMLDecl
             (Some (mkDTD ∅ ∅)) (Some (mkDTD {[ "copy"%string := extEntity ]} ∅)).
Definition plainWorld : world :=
  mkWorld [ODocument plainDoc] emptyTreeBuilder
          (mkParserCtx "1.0" "" StandaloneNoXMLDecl 0 false (Some 0%nat)).

(** The bytes that delimit markup inside an attribute value written
    between double quotes: tab, line feed, carriage return, the two quotes
    and the angle brackets. *)
Definition isAttrMarkup (b : Z) : bool :=
  (b =? 9) || (b =? 10) || (b =? 13) || (b =? 34) || (b =? 39) || (b =? 60) || (b =? 62).

(** The bytes that text content must not hold as they are: carriage return,
    the two quotes and the angle brackets. *)
Definition isTextMarkup (b : Z) : bool :=
  (b =? 13) || (b =? 34) || (b =? 39) || (b =? 60) || (b =? 62).

(** A printable ASCII byte other than the five characters with an escape. *)
Definition isPlain (b : Z) : bool :=
  (0x20 <=? b) && (b <? 0x80) &&
  negb ((b =? 34) || (b =? 38) || (b =? 39) || (b =? 60) || (b =? 62)).

(** The [Char] production of XML 1.0, section 2.2. *)
Definition xmlChar (r : Z) : bool :=
  (r =? 0x9) || (r =? 0xA) || (r =? 0xD) ||
  ((0x20 <=? r) && (r <=? 0xD7FF)) ||
  ((0xE000 <=? r) && (r <=? 0xFFFD)) ||
  ((0x10000 <=? r) && (r <=? 0x10FFFF)).

(* ===================================================================== *)
(** ** Parameter entities *)
(* ===================================================================== *)

(** Modelled from the spec: the error values [ErrInvalidParserCtx],
    [ErrInvalidDocument] and [ErrEntityNotFound] are missing from the
    sources; they are three distinct errors. *)
Definition ErrInvalidParserCtx : error := errorString "invalid parser context".
Definition ErrInvalidDocument : error := errorString "invalid document".
Definition ErrEntityNotFound : error := errorString "entity not found".

(** [sax.Context] is [interface{}]. The value a handler receives is the
    [nil] interface, a [*parserCtx] (a [nil] pointer, or a pointer to a
    context), or a value of another dynamic type, of which only the name of
    the type matters. *)
Inductive sax_Context : Type :=
| NilContext
| ParserCtxPointer (c : option parserCtx)
| OtherContext (ty : string).

(** The panic of the type assertion of [ctxif] to [*parserCtx] on a value
    of another dynamic type. *)
Definition assertionPanic (ty : string) : string :=
  "interface conversion: interface {} is " +:+ ty +:+ ", not *helium.parserCtx".

Section ParameterEntities.

(** [Document.GetParameterEntity] is missing from the sources: the lookup in
    the parameter-entity tables of a document is left abstract. *)
Variable lookupParameterEntity : Document -> string -> option Entity.

(** [TreeBuilder.GetParameterEntity]. The test [ctxif == nil] holds of the
    [nil] interface only: a [nil] [*parserCtx] held in the interface passes
    it and the assertion, and [ctx.doc] then dereferences the [nil]
    pointer. *)
Definition GetParameterEntity (h : heap) (ctxif : sax_Context) (nm : string)
  : outcome (option Entity * option error) :=
  match ctxif with
  | NilContext => Done (None, Some ErrInvalidParserCtx)
  | OtherContext ty => Panic (assertionPanic ty)
  | ParserCtxPointer None =>
    Panic "invalid memory address or nil pointer dereference"
  | ParserCtxPointer (Some c) =>
    match ctx_doc c with
    | None => Done (None, Some ErrInvalidDocument)
    | Some dp =>
      d ← derefDocument h dp;
      match lookupParameterEntity d nm with
      | Some ret => Done (Some ret, None)
      | None => Done (None, Some ErrEntityNotFound)
      end
    end
  end.

End ParameterEntities.

(** A document with one parameter entity in its internal subset, and the
    context it is attached to. *)
Definition peEntity : Entity :=
  newEntity "pe" InternalParameterEntity "" "" "x" "x".
Definition peDoc : Document :=
  mkDocument (emptyDocnode "(document)" None) "1.0" "" StandaloneNoXMLDecl
             (Some (mkDTD ∅ {[ "pe"%string := peEntity ]})) None.
Definition peCtx : parserCtx :=
  mkParserCtx "1.0" "" StandaloneNoXMLDecl 1 false (Some 0%nat).

(** The parameter-entity tables of the two subsets, the internal one
    first. *)
Definition lookupInSubsets (d : Document) (nm : string) : option Entity :=
  match intSubset d with
  | Some s => match pentities s !! nm with
              | Some e => Some e
              | None => match extSubset d with
                        | Some s' => pentities s' !! nm
                        | None => None
                        end
              end
  | None => match extSubset d with
            | Some s' => pentities s' !! nm
            | None => None
            end
  end.

(* ===================================================================== *)
(** ** Option constants *)
(* ===================================================================== *)

(** [LoadSubsetOption]: [1<<iota+1] is [(1<<iota)+1], with [iota] counting
    the constants of the block from 0. *)
Definition DetectIDs : Z := Z.shiftl 1 0 + 1.
Definition CompleteAttrs : Z := Z.shiftl 1 1 + 1.
Definition SkipIDs : Z := Z.shiftl 1 2 + 1.

(** [ParseOption]: [1 << iota] for the first nine constants, then
    [1<<iota + 10], then [1<<iota + 21], then [1 << 22]. *)
Definition ParseRecover : Z := Z.shiftl 1 0.
Definition ParseNoEnt : Z := Z.shiftl 1 1.
Definition ParseDTDLoad : Z := Z.shiftl 1 2.
Definition ParseDTDAttr : Z := Z.shiftl 1 3.
Definition ParseDTDValid : Z := Z.shiftl 1 4.
Definition ParseNoError : Z := Z.shiftl 1 5.
Definition ParseNoWarning : Z := Z.shiftl 1 6.
Definition ParsePedantic : Z := Z.shiftl 1 7.
Definition ParseNoBlanks : Z := Z.shiftl 1 8.
Definition ParseXInclude : Z := Z.shiftl 1 9 + 10.
Definition ParseNoNet : Z := Z.shiftl 1 10 + 10.
Definition ParseNoDict : Z := Z.shiftl 1 11 + 10.
Definition ParseNsClean : Z := Z.shiftl 1 12 + 10.
Definition ParseNoCDATA : Z := Z.shiftl 1 13 + 10.
Definition ParseNoXIncNode : Z := Z.shiftl 1 14 + 10.
Definition ParseCompact : Z := Z.shiftl 1 15 + 10.
Definition ParseNoBaseFix : Z := Z.shiftl 1 16 + 10.
Definition ParseHuge : Z := Z.shiftl 1 17 + 10.
Definition ParseIgnoreEnc : Z := Z.shiftl 1 18 + 21.
Definition ParseBigLines : Z := Z.shiftl 1 22.

(** The options, in the order of their declaration. *)
Definition parseOptions : list Z :=
  [ParseRecover; ParseNoEnt; ParseDTDLoad; ParseDTDAttr; ParseDTDValid;
   ParseNoError; ParseNoWarning; ParsePedantic; ParseNoBlanks; ParseXInclude;
   ParseNoNet; ParseNoDict; ParseNsClean; ParseNoCDATA; ParseNoXIncNode;
   ParseCompact; ParseNoBaseFix; ParseHuge; ParseIgnoreEnc; ParseBigLines].

(* ===================================================================== *)
(** ** Valid UTF-8 *)
(* ===================================================================== *)

(** The bytes [p] are valid UTF-8, in the sense of Go's [utf8.Valid]: read
    value by value with [DecodeRune], they never give a decoding error,
    that is [RuneError] with width one. *)
Fixpoint validRunes (fuel : nat) (p : list Z) : bool :=
  match p with
  | [] => true
  | _ :: _ =>
    match fuel with
    | O => false
    | S fuel' =>
      let '(r, w) := utf8.DecodeRune p in
      if (r =? utf8.RuneError) && (w =? 1)%nat then false
      else validRunes fuel' (drop w p)
    end
  end.

Definition validUTF8 (p : list Z) : bool := validRunes (length p) p.

(** [p] is the encoding of one value: whatever follows it, [DecodeRune]
    reads exactly [p], without a decoding error. *)
Definition oneRune (p : list Z) : Prop :=
  p <> [] /\
  exists r, (forall tl, utf8.DecodeRune (p ++ tl) = (r, length p)) /\
            ~ (r = utf8.RuneError /\ length p = 1%nat).

(** [l] is a sequence of encoded values. *)
Definition runes (l : list Z) : Prop :=
  exists ps, l = concat ps /\ Forall oneRune ps.

(* ===================================================================== *)
(** * Properties *)
(* ===================================================================== *)

(** ** Escaping: a first example *)

Example escapeAttr_ex :
  escapeAttrValue ([] : Buffer) (bytes "a<b" ++ [9; 0xC3; 0x9F; 0xFF; 1])
  = Done (bytes "a&lt;b&#9;&#xDF;" ++ [0xEF; 0xBF; 0xBD] ++ bytes "&#x1;", None).
Proof. vm_compute. reflexivity. Qed.

(** A sink that fails stops the escaping functions at the failed write,
    while [DumpNode], which drops the result of its writes, still reports
    success. *)
Example escapeText_short_write :
  escapeText (mkLimited 3 []) (bytes "ab<cd") false
  = Done (mkLimited 1 (bytes "ab"), Some (errorString "short write")) /\
  DumpNode 1 [OText (mkNode (emptyDocnode "(text)" None) (bytes "ab<cd") [] None)]
           (mkLimited 3 []) 0%nat
  = Done (mkLimited 1 (bytes "ab"), None).
Proof. split; vm_compute; reflexivity. Qed.

(** ** Decoding: examples *)

Example DecodeRune_examples :
  utf8.DecodeRune [0x41; 0x42] = (0x41, 1%nat) /\
  utf8.DecodeRune [0xC3; 0x9F] = (0xDF, 2%nat) /\
  utf8.DecodeRune [0xE2; 0x82; 0xAC] = (0x20AC, 3%nat) /\
  utf8.DecodeRune [0xF0; 0x9F; 0x98; 0x80] = (0x1F600, 4%nat) /\
  utf8.DecodeRune [0xEF; 0xBF; 0xBD] = (utf8.RuneError, 3%nat) /\
  utf8.DecodeRune [0xFF] = (utf8.RuneError, 1%nat) /\
  utf8.DecodeRune [0x80] = (utf8.RuneError, 1%nat) /\
  utf8.DecodeRune [0xC0; 0x80] = (utf8.RuneError, 1%nat) /\
  utf8.DecodeRune [0xE2; 0x82] = (utf8.RuneError, 1%nat) /\
  utf8.DecodeRune [0xED; 0xA0; 0x80] = (utf8.RuneError, 1%nat) /\
  utf8.DecodeRune [0xF4; 0x90; 0x80; 0x80] = (utf8.RuneError, 1%nat) /\
  utf8.DecodeRune [] = (utf8.RuneError, 0%nat).
Proof. repeat split; reflexivity. Qed.

(** ** Decoding always makes progress *)

Lemma DecodeRune_width_pos (p : list Z) :
  p <> [] -> (1 <= snd (utf8.DecodeRune p))%nat.
Proof.
  destruct p as [|p0 p']; [congruence|]. intros _.
  unfold utf8.DecodeRune.
  repeat match goal with
         | |- context [if ?b then _ else _] => destruct b
         | |- context [match ?l with [] => _ | _ :: _ => _ end] => destruct l
         end; simpl; lia.
Qed.

Lemma DecodeRune_width_le (p : list Z) :
  (snd (utf8.DecodeRune p) <= length p)%nat.
Proof.
  destruct p as [|p0 p']; [simpl; lia|].
  unfold utf8.DecodeRune.
  repeat match goal with
         | |- context [if ?b then _ else _] => destruct b
         | |- context [match ?l with [] => _ | _ :: _ => _ end] => destruct l
         end; simpl; lia.
Qed.

(** ** The escaping loop terminates within its fuel *)

Section EscapingTotal.
Context {W : Type} `{Writer W}.

Lemma escapeLoop_total sw (fuel : nat) :
  forall (w : W) (s : list Z) (i last : nat),
    (length s - i <= fuel)%nat ->
    exists r, escapeLoop sw fuel w s i last = Done r.
Proof.
  induction fuel as [|fuel IH]; intros w s i last Hfuel.
  - simpl. destruct (Nat.ltb_spec i (length s)); [lia|].
    destruct (Write w (drop last s)) as [w' [e|]]; eauto.
  - simpl. destruct (Nat.ltb_spec i (length s)) as [Hlt|Hge].
    + pose proof (DecodeRune_width_pos (drop i s)) as Hpos.
      destruct (utf8.DecodeRune (drop i s)) as [r width] eqn:Hdec.
      simpl in Hpos.
      assert (1 <= width)%nat as Hw.
      { apply Hpos. intros Hnil.
        apply (f_equal length) in Hnil. rewrite length_drop in Hnil.
        simpl in Hnil. lia. }
      destruct (sw r width) as [esc|].
      * destruct (Write w _) as [w1 [e|]]; eauto.
        destruct (Write w1 esc) as [w2 [e|]]; eauto.
        apply IH. lia.
      * apply IH. lia.
    + destruct (Write w (drop last s)) as [w' [e|]]; eauto.
Qed.

Lemma escapeText_total (w : W) (s : list Z) (escapeNewline : bool) :
  exists r, escapeText w s escapeNewline = Done r.
Proof. apply escapeLoop_total. lia. Qed.

Lemma escapeAttrValue_total (w : W) (s : list Z) :
  exists r, escapeAttrValue w s = Done r.
Proof. apply escapeLoop_total. lia. Qed.

End EscapingTotal.

(** ** C1: the end-to-end example *)

Example rootHiXML_bytes :
  rootHiXML
  = [60; 63; 120; 109; 108; 32; 118; 101; 114; 115; 105; 111; 110; 61; 34;
     49; 46; 48; 34; 63; 62; 10;
     60; 114; 111; 111; 116; 62; 104; 105; 60; 47; 114; 111; 111; 116; 62; 10].
Proof. reflexivity. Qed.

(** C1. The events document-start (version 1.0, no encoding, no standalone
    declaration), element-start root, characters hi, element-end root,
    document-end are all accepted by the tree builder; the document handed to
    the context then serializes with [DumpDoc], into an empty buffer and with
    any fuel of at least four, to exactly the bytes of
    [<?xml version="1.0"?>], a newline, [<root>hi</root>] and a newline. *)
Theorem end_to_end_root_hi (sa : Z) (k : nat) :
  sa <> StandaloneExplicitYes ->
  sa <> StandaloneExplicitNo ->
  exists st d,
    feed (freshWorld "1.0" "" sa) rootHiEvents = Done (st, None) /\
    ctx_doc (ctx st) = Some d /\
    DumpDoc (4 + k) (mem st) ([] : Buffer) d = Done (rootHiXML, None).
Proof.
  intros Hyes Hno.
  eexists; exists 0%nat. split; [vm_compute; reflexivity|].
  split; [reflexivity|].
  unfold StandaloneExplicitYes, StandaloneExplicitNo in *.
  destruct sa as [|[p|p|]|p]; try congruence; vm_compute; reflexivity.
Qed.

Lemma end_to_end_root_hi_witness :
  exists st d,
    feed (freshWorld "1.0" "" StandaloneNoXMLDecl) rootHiEvents = Done (st, None) /\
    ctx_doc (ctx st) = Some d /\
    DumpDoc 4 (mem st) ([] : Buffer) d = Done (rootHiXML, None).
Proof.
  apply (end_to_end_root_hi StandaloneNoXMLDecl 0); vm_compute; congruence.
Defined.

(** ** C5: serialization of a comment *)

(** What [DumpNode] writes for a comment node, whatever the sink: the opening
    mark, the raw content, and the closing mark followed by a line feed. No
    fuel beyond the call itself is used, so no child is visited. *)
Lemma DumpNode_comment {W : Type} `{Writer W}
      (h : heap) (out : W) (n : ptr) (c : node) :
  h !! n = Some (OComment c) ->
  DumpNode 1 h out n
  = Done (put (putBytes (put out "<!--") (content c)) ("-->" +:+ nl), None).
Proof. intros Hn. simpl. unfold deref. rewrite Hn. reflexivity. Qed.

(** C5. For every comment content [c], [DumpNode] writes [<!--], then [c]
    unescaped, then [-->] and one more byte, a line feed, which the claim
    excludes; it does not recurse into children (one unit of fuel is
    enough). *)
Theorem DumpNode_comment_trailing_newline (c : list Z) :
  DumpNode 1 (commentHeap c) ([] : Buffer) 0%nat
  = Done (bytes "<!--" ++ c ++ bytes "-->" ++ [10], None)
  /\ bytes "<!--" ++ c ++ bytes "-->" ++ [10] <> bytes "<!--" ++ c ++ bytes "-->".
Proof.
  split.
  - rewrite (DumpNode_comment (commentHeap c) ([] : Buffer) 0%nat
               (mkNode (emptyDocnode "(comment)" None) c [] None) eq_refl).
    unfold put, putBytes, WriteString, Write, Buffer_Writer. simpl.
    reflexivity.
  - intros Heq. apply (f_equal length) in Heq.
    rewrite !length_app in Heq. simpl in Heq. lia.
Qed.

(** ** C10: serialization of a text node *)

(** C10. For a text node whose content is exactly the bytes of
    ["textnoenc"], [DumpNode] panics with "unimplemented". For a text node
    with any other content it returns normally with no error, having written
    what [escapeText] writes for that content with newline escaping off; one
    unit of fuel is enough, so no child is visited. *)
Theorem DumpNode_text {W : Type} `{Writer W}
        (fuel : nat) (h : heap) (out : W) (n : ptr) (c : node) :
  h !! n = Some (OText c) ->
  (content c = bytes XMLTextNoEnc ->
   DumpNode (S fuel) h out n = Panic "unimplemented") /\
  (content c <> bytes XMLTextNoEnc ->
   exists out' err,
     escapeText out (content c) false = Done (out', err) /\
     DumpNode (S fuel) h out n = Done (out', None) /\
     DumpNode 1 h out n = Done (out', None)).
Proof.
  intros Hn. split; intros Hc.
  - simpl. unfold deref. rewrite Hn. simpl.
    rewrite bool_decide_eq_true_2 by exact Hc. reflexivity.
  - destruct (escapeText_total out (content c) false) as [[out' err] Hesc].
    exists out', err. split; [exact Hesc|].
    split; simpl; unfold deref; rewrite Hn; simpl;
      rewrite bool_decide_eq_false_2 by exact Hc; rewrite Hesc; reflexivity.
Qed.

Lemma DumpNode_text_witness :
  DumpNode 1 (textHeap (bytes "textnoenc")) ([] : Buffer) 0%nat
  = Panic "unimplemented"
  /\ DumpNode 1 (textHeap (bytes "a<b")) ([] : Buffer) 0%nat
     = Done (bytes "a&lt;b", None).
Proof.
  split.
  - apply (DumpNode_text 0 (textHeap (bytes "textnoenc")) ([] : Buffer) 0%nat
                         _ eq_refl).
    reflexivity.
  - destruct (DumpNode_text 0 (textHeap (bytes "a<b")) ([] : Buffer) 0%nat
                            _ eq_refl) as [_ Hother].
    destruct Hother as (out' & err & Hesc & _ & Hdump).
    + vm_compute. congruence.
    + rewrite Hdump. vm_compute in Hesc. injection Hesc as <- <-. reflexivity.
Defined.

(** ** C6: the builder after document-end *)

(** What [EndDocument] does, in every state: it succeeds, hands the
    document to the context and clears the document reference; the cursor
    and the heap are left as they were. *)
Lemma EndDocument_effect (st : world) :
  TreeBuilder.EndDocument st
  = Done (mkWorld (mem st)
                  (mkTreeBuilder None (t_node (t st)))
                  (setCtxDoc (t_doc (t st)) (ctx st)), None).
Proof. reflexivity. Qed.

(** C6. After the events document-start, element-start root, characters hi,
    element-end root, document-end, the document has been handed to the
    context and the document reference of the builder is cleared, but the
    cursor still points to the document node: the builder is not back in
    its initial empty state. *)
Theorem EndDocument_leaves_cursor :
  exists st,
    feed (freshWorld "1.0" "" StandaloneNoXMLDecl) rootHiEvents = Done (st, None) /\
    ctx_doc (ctx st) = Some 0%nat /\
    t_doc (t st) = None /\
    t_node (t st) = Some 0%nat /\
    t st <> emptyTreeBuilder.
Proof.
  eexists. split; [vm_compute; reflexivity|].
  simpl. repeat split; try reflexivity. discriminate.
Qed.

(** A builder reused after document-end attaches the root of the next
    document under the stale cursor, that is under the previous document:
    the new document (at index 3) has no child. *)
Lemma reused_builder_attaches_to_old_document :
  exists st d,
    feed (freshWorld "1.0" "" StandaloneNoXMLDecl)
         (rootHiEvents ++ [EvStartDocument; EvStartElement "second" "" "" [] []])
    = Done (st, None) /\
    t_doc (t st) = Some 3%nat /\
    mem st !! 3%nat = Some (ODocument d) /\
    firstChild (dbase d) = None /\
    (LastChild <$> mem st !! 0%nat) = Some (Some 4%nat).
Proof.
  eexists; eexists. split; [vm_compute; reflexivity|].
  repeat split; reflexivity.
Qed.

(** ** C4: element-end *)

(** C4. With the cursor on an open element [e]: when the (local name,
    prefix, uri) of the event equals that of [e], [EndElement] succeeds and
    moves the cursor to the parent of [e]; when it differs in any component,
    [EndElement] succeeds as well and leaves the whole state, the cursor
    included, unchanged. *)
Theorem EndElement_moves_iff_match (st : world) (n : ptr) (e : node)
        (localname prefix uri : string) :
  t_node (t st) = Some n ->
  mem st !! n = Some (OElement e) ->
  ((localname, prefix, uri) = (LocalName e, Prefix e, URI e) ->
   TreeBuilder.EndElement st localname prefix uri
   = Done (mkWorld (mem st) (mkTreeBuilder (t_doc (t st)) (parent (base e))) (ctx st),
           None)) /\
  ((localname, prefix, uri) <> (LocalName e, Prefix e, URI e) ->
   TreeBuilder.EndElement st localname prefix uri = Done (st, None)).
Proof.
  intros Hcur Hn. unfold TreeBuilder.EndElement. rewrite Hcur.
  unfold deref. rewrite Hn. simpl.
  split.
  - intros Heq. injection Heq as -> -> ->.
    rewrite !String.eqb_refl. reflexivity.
  - intros Hne.
    destruct (String.eqb_spec (LocalName e) localname) as [<-|]; [|reflexivity].
    destruct (String.eqb_spec (Prefix e) prefix) as [<-|]; [|reflexivity].
    destruct (String.eqb_spec (URI e) uri) as [<-|]; [|reflexivity].
    congruence.
Qed.

Lemma EndElement_moves_iff_match_witness :
  TreeBuilder.EndElement openItemWorld "item" "a" "urn:a"
  = Done (mkWorld (mem openItemWorld) (mkTreeBuilder None (Some 0%nat))
                  (ctx openItemWorld), None)
  /\ TreeBuilder.EndElement openItemWorld "item" "b" "urn:a"
     = Done (openItemWorld, None).
Proof.
  destruct (EndElement_moves_iff_match openItemWorld 1%nat
              (mkNode (mkDocnode "item" None None (Some 0%nat) None None None)
                      [] [] (Some (mkNamespace "urn:a" "a")))
              "item" "a" "urn:a" eq_refl eq_refl) as [Hmatch _].
  destruct (EndElement_moves_iff_match openItemWorld 1%nat
              (mkNode (mkDocnode "item" None None (Some 0%nat) None None None)
                      [] [] (Some (mkNamespace "urn:a" "a")))
              "item" "b" "urn:a" eq_refl eq_refl) as [_ Hdiff].
  split.
  - apply Hmatch. reflexivity.
  - apply Hdiff. vm_compute. intros Heq. discriminate Heq.
Defined.

(** ** C7: predefined entities *)

(** C7. Outside DTD-subset processing ([inSubset = 0]), [GetEntity] returns
    for each of the names lt, gt, amp, apos, quot the corresponding
    predefined entity, whose content is [<], [>], [&], ['] and the double
    quote, with no error. This holds in every state, in particular with no
    document attached to the context, and the state is returned untouched. *)
Theorem GetEntity_predefined (st : world) :
  inSubset (ctx st) = 0 ->
  (TreeBuilder.GetEntity st "lt" = Done (st, (Some EntityLT, None)) /\
   TreeBuilder.GetEntity st "gt" = Done (st, (Some EntityGT, None)) /\
   TreeBuilder.GetEntity st "amp" = Done (st, (Some EntityAmpersand, None)) /\
   TreeBuilder.GetEntity st "apos" = Done (st, (Some EntityApostrophe, None)) /\
   TreeBuilder.GetEntity st "quot" = Done (st, (Some EntityQuote, None))) /\
  (ent_content EntityLT = "<" /\
   ent_content EntityGT = ">" /\
   ent_content EntityAmpersand = "&" /\
   ent_content EntityApostrophe = "'" /\
   ent_content EntityQuote = dquote)%string.
Proof.
  intros Hsub. split.
  - unfold TreeBuilder.GetEntity. rewrite Hsub. simpl. repeat split; reflexivity.
  - repeat split; reflexivity.
Qed.

Lemma GetEntity_predefined_witness :
  ctx_doc (ctx noDocWorld) = None /\
  TreeBuilder.GetEntity noDocWorld "amp"
  = Done (noDocWorld, (Some EntityAmpersand, None)).
Proof.
  split; [reflexivity|].
  apply (GetEntity_predefined noDocWorld). reflexivity.
Defined.

(** ** C3 and C8: lookups in a standalone document *)

Lemma setStandalone_restore (d : Document) :
  standalone d = 1 -> setStandalone 1 (setStandalone 0 d) = d.
Proof. destruct d; simpl; intros ->; reflexivity. Qed.

Lemma writeStandalone_lookup (h : heap) (dp : ptr) (d : Document) (v : Z) :
  h !! dp = Some (ODocument d) ->
  TreeBuilder.writeStandalone h dp v !! dp = Some (ODocument (setStandalone v d)).
Proof.
  intros Hd. unfold TreeBuilder.writeStandalone.
  rewrite list_lookup_alter_eq, Hd. reflexivity.
Qed.

Lemma writeStandalone_other (h : heap) (dp q : ptr) (v : Z) :
  dp <> q -> TreeBuilder.writeStandalone h dp v !! q = h !! q.
Proof. intros Hne. apply list_lookup_alter_ne. exact Hne. Qed.

(** The path of [GetEntity] through a standalone document outside the
    external subset, once the predefined table did not answer. *)
Lemma GetEntity_standalone_path (st : world) (dp : ptr) (d : Document) (nm : string) :
  ctx_doc (ctx st) = Some dp ->
  mem st !! dp = Some (ODocument d) ->
  standalone d = 1 ->
  inSubset (ctx st) <> 2 ->
  (inSubset (ctx st) = 0 -> resolvePredefinedEntity nm = None) ->
  TreeBuilder.GetEntity st nm =
  match Document_GetEntity d nm with
  | Some ret => Done (st, (Some ret, None))
  | None =>
    let h := TreeBuilder.writeStandalone (mem st) dp 0 in
    match Document_GetEntity (setStandalone 0 d) nm with
    | None => Done (setMem h st, (None, Some (TreeBuilder.standaloneError nm)))
    | Some ret =>
      Done (setMem (TreeBuilder.writeStandalone h dp 1) st, (Some ret, None))
    end
  end.
Proof.
  intros Hdoc Hd Hsa Hext Hpre. unfold TreeBuilder.GetEntity.
  assert ((if inSubset (ctx st) =? 0 then resolvePredefinedEntity nm else None) = None)
    as ->.
  { destruct (Z.eqb_spec (inSubset (ctx st)) 0); auto. }
  rewrite Hdoc. unfold derefDocument, deref. rewrite Hd. simpl.
  rewrite Hsa. simpl.
  destruct (Z.eqb_spec (inSubset (ctx st)) 2); [contradiction|].
  destruct (Document_GetEntity d nm); [reflexivity|].
  rewrite (writeStandalone_lookup _ _ _ _ Hd). simpl. reflexivity.
Qed.

(** A predefined name on a standalone document whose tables are empty:
    the document's tables miss it with the flag set and with the flag
    cleared, and [GetEntity] answers from the predefined table, which comes
    first, with the state unchanged. *)
Example predefined_name_on_standalone_document :
  Document_GetEntity standaloneDoc "lt" = None /\
  Document_GetEntity (setStandalone 0 standaloneDoc) "lt" = None /\
  lookupGeneralEntity standaloneDoc "lt" = Some EntityLT /\
  TreeBuilder.GetEntity standaloneWorld "lt"
  = Done (standaloneWorld, (Some EntityLT, None)).
Proof. repeat split; reflexivity. Qed.



Example standalone_retry_hit :
  Document_GetEntity extOnlyDoc "copy" = None /\
  Document_GetEntity (setStandalone 0 extOnlyDoc) "copy" = Some extEntity /\
  TreeBuilder.GetEntity extOnlyWorld "copy"
  = Done (extOnlyWorld, (Some extEntity, None)).
Proof. repeat split; vm_compute; reflexivity. Qed.

(** C8. On the standalone-retry path, when both lookups miss, [GetEntity]
    returns the error and leaves the standalone field of the document at 0:
    the flag it cleared before the retry is not set back. *)
Theorem GetEntity_failure_leaves_flag_cleared (st : world) (dp : ptr)
        (d : Document) (nm : string) :
  ctx_doc (ctx st) = Some dp ->
  mem st !! dp = Some (ODocument d) ->
  standalone d = 1 ->
  inSubset (ctx st) <> 2 ->
  (inSubset (ctx st) = 0 -> resolvePredefinedEntity nm = None) ->
  Document_GetEntity d nm = None ->
  Document_GetEntity (setStandalone 0 d) nm = None ->
  exists st',
    TreeBuilder.GetEntity st nm
    = Done (st', (None, Some (TreeBuilder.standaloneError nm))) /\
    mem st' !! dp = Some (ODocument (setStandalone 0 d)) /\
    standalone (setStandalone 0 d) = 0 /\
    mem st' !! dp <> mem st !! dp.
Proof.
  intros Hdoc Hd Hsa Hext Hpre Hmiss Hretry.
  rewrite (GetEntity_standalone_path st dp d nm Hdoc Hd Hsa Hext Hpre).
  rewrite Hmiss. simpl. rewrite Hretry.
  eexists. split; [reflexivity|]. simpl.
  rewrite (writeStandalone_lookup _ _ _ _ Hd), Hd.
  repeat split.
  intros Heq. injection Heq as Heq. apply (f_equal standalone) in Heq.
  simpl in Heq. lia.
Qed.

Lemma GetEntity_failure_leaves_flag_cleared_witness :
  exists st',
    TreeBuilder.GetEntity standaloneWorld "copy"
    = Done (st', (None, Some (TreeBuilder.standaloneError "copy"))) /\
    mem st' !! 0%nat = Some (ODocument (setStandalone 0 standaloneDoc)) /\
    standalone (setStandalone 0 standaloneDoc) = 0 /\
    mem st' !! 0%nat <> mem standaloneWorld !! 0%nat.
Proof.
  apply (GetEntity_failure_leaves_flag_cleared standaloneWorld 0%nat standaloneDoc "copy");
    try reflexivity; vm_compute; congruence.
Defined.

(** ** C9: attribute errors during element-start *)

(** The duplicate-checked set operation does reject a name that is already
    on the element, and leaves the heap as it is. *)
Lemma SetAttribute_duplicate (h : heap) (e : ptr) (nd : node) (nm value : string) :
  h !! e = Some (OElement nd) ->
  existsb (fun a => String.eqb (attr_name a) nm) (properties nd) = true ->
  SetAttribute h e nm value = Done (h, Some ErrDuplicateAttribute).
Proof.
  intros He Hdup. unfold SetAttribute, deref. rewrite He. simpl.
  rewrite Hdup. reflexivity.
Qed.

(** The loop over the attributes of the event always runs to its end,
    whatever [SetAttribute] answers, and touches the new element only. *)
Lemma setAttributes_total (attrs : list saxAttribute) :
  forall (h : heap) (e : ptr) (nd : node),
    h !! e = Some (OElement nd) ->
    TreeBuilder.setAttributes h e attrs
    = Done (<[e := OElement (mkNode (base nd) (content nd)
                                    (firstWins (properties nd) attrs) (ns nd))]> h).
Proof.
  induction attrs as [|a attrs IH]; intros h e nd He.
  - simpl. rewrite list_insert_id; [reflexivity|]. rewrite He. destruct nd; reflexivity.
  - simpl. unfold SetAttribute, deref. rewrite He. simpl.
    destruct (existsb _ (properties nd)) eqn:Hdup; simpl.
    + apply IH. exact He.
    + rewrite (IH _ e (mkNode (base nd) (content nd)
                              (properties nd ++ [mkAttribute (sax_name a) (sax_value a)])
                              (ns nd))).
      * simpl. rewrite list_insert_insert_eq. reflexivity.
      * apply list_lookup_insert_eq. eapply lookup_lt_Some. exact He.
Qed.

Lemma AddChild_total (h : heap) (p c : ptr) :
  (p < length h)%nat -> (c < length h)%nat ->
  exists h', AddChild h p c = Done (h', None) /\ length h' = length h.
Proof.
  intros Hp Hc.
  destruct (lookup_lt_is_Some_2 h p Hp) as [po Hpo].
  destruct (lookup_lt_is_Some_2 h c Hc) as [co Hco].
  unfold AddChild, deref. rewrite Hpo. simpl. rewrite Hco. simpl.
  destruct (LastChild po); eexists; (split; [reflexivity|]);
    rewrite !length_alter; reflexivity.
Qed.

(** Linking a child touches the tree linkage only: attribute chains are
    what they were. *)
Lemma attributesOf_mapDocnode (f : docnode -> docnode) (o : object) :
  attributesOf (mapDocnode f o) = attributesOf o.
Proof. destruct o; reflexivity. Qed.

Lemma alter_attributes (f : docnode -> docnode) (j i : nat) (h : heap) :
  (alter (mapDocnode f) j h !! i) ≫= attributesOf = (h !! i) ≫= attributesOf.
Proof.
  destruct (decide (j = i)) as [->|Hne].
  - rewrite list_lookup_alter_eq. destruct (h !! i) as [o|]; simpl; [|reflexivity].
    apply attributesOf_mapDocnode.
  - rewrite list_lookup_alter_ne by exact Hne. reflexivity.
Qed.

Lemma AddChild_attributes (h h' : heap) (p c i : nat) (err : option error) :
  AddChild h p c = Done (h', err) ->
  (h' !! i) ≫= attributesOf = (h !! i) ≫= attributesOf.
Proof.
  unfold AddChild, deref.
  destruct (h !! p) as [po|]; simpl; [|discriminate].
  destruct (h !! c) as [co|]; simpl; [|discriminate].
  destruct (LastChild po); intros Heq; injection Heq as <- _;
    rewrite !alter_attributes; reflexivity.
Qed.

(** The run of [StartElement] in a builder that has a document and whose
    cursor, if any, is a live node: the element is allocated at the end of
    the heap, receives the first occurrence of each attribute name, and is
    linked under the cursor or, without a cursor, under the document. *)
Lemma StartElement_run
      (st : world) (d : nat) (localname prefix uri : string)
      (namespaces : list Namespace) (attrs : list saxAttribute) :
  t_doc (t st) = Some d ->
  (d < length (mem st))%nat ->
  (forall n, t_node (t st) = Some n -> (n < length (mem st))%nat) ->
  let e := length (mem st) in
  let el := mkNode (emptyDocnode localname (Some d)) [] (firstWins [] attrs) None in
  exists h',
    AddChild (mem st ++ [OElement el]) (default d (t_node (t st))) e = Done (h', None) /\
    TreeBuilder.StartElement st localname prefix uri namespaces attrs
    = Done (mkWorld h' (mkTreeBuilder (Some d) (Some e)) (ctx st), None).
Proof.
  intros Hdoc Hd Hcur. cbv zeta.
  unfold TreeBuilder.StartElement, CreateElement, alloc.
  simpl. rewrite Hdoc.
  rewrite (setAttributes_total attrs
             (mem st ++ [OElement (mkNode (emptyDocnode localname (Some d)) [] [] None)])
             (length (mem st)) (mkNode (emptyDocnode localname (Some d)) [] [] None))
    by (rewrite lookup_app_r, Nat.sub_diag by lia; reflexivity).
  simpl.
  set (el := mkNode (emptyDocnode localname (Some d)) [] (firstWins [] attrs) None).
  rewrite insert_app_r_alt, Nat.sub_diag by lia. simpl.
  assert (match t_node (t st) with
          | Some n => AddChild (mem st ++ [OElement el]) n (length (mem st))
          | None => AddChild (mem st ++ [OElement el]) d (length (mem st))
          end = AddChild (mem st ++ [OElement el]) (default d (t_node (t st)))
                         (length (mem st))) as ->.
  { destruct (t_node (t st)); reflexivity. }
  destruct (AddChild_total (mem st ++ [OElement el]) (default d (t_node (t st)))
                           (length (mem st)))
    as (h' & Hadd & _).
  - rewrite length_app. simpl.
    destruct (t_node (t st)) as [n|] eqn:Hn; simpl; [specialize (Hcur n eq_refl)|]; lia.
  - rewrite length_app. simpl. lia.
  - exists h'. split; [exact Hadd|]. rewrite Hadd. reflexivity.
Qed.

(** C9. Whatever the attribute list of an element-start event, duplicates
    included, [StartElement] returns success as soon as the builder has a
    document and its cursor, if any, is a live node: element creation
    succeeds, the result of every [SetAttribute] call is dropped, and the
    cursor moves to the new element. *)
Theorem StartElement_ignores_attribute_errors
        (st : world) (d : nat) (localname prefix uri : string)
        (namespaces : list Namespace) (attrs : list saxAttribute) :
  t_doc (t st) = Some d ->
  (d < length (mem st))%nat ->
  (forall n, t_node (t st) = Some n -> (n < length (mem st))%nat) ->
  exists st',
    TreeBuilder.StartElement st localname prefix uri namespaces attrs
    = Done (st', None) /\
    t_node (t st') = Some (length (mem st)).
Proof.
  intros Hdoc Hd Hcur.
  destruct (StartElement_run st d localname prefix uri namespaces attrs Hdoc Hd Hcur)
    as (h' & _ & Hrun).
  eexists. split; [exact Hrun|reflexivity].
Qed.

(** The element created by [StartElement] carries the first occurrence of
    each attribute name of the event, in the order of the event. *)
Lemma StartElement_attributes
      (st : world) (d : nat) (localname prefix uri : string)
      (namespaces : list Namespace) (attrs : list saxAttribute) :
  t_doc (t st) = Some d ->
  (d < length (mem st))%nat ->
  (forall n, t_node (t st) = Some n -> (n < length (mem st))%nat) ->
  exists st',
    TreeBuilder.StartElement st localname prefix uri namespaces attrs
    = Done (st', None) /\
    (mem st' !! length (mem st)) ≫= attributesOf = Some (firstWins [] attrs).
Proof.
  intros Hdoc Hd Hcur.
  destruct (StartElement_run st d localname prefix uri namespaces attrs Hdoc Hd Hcur)
    as (h' & Hadd & Hrun).
  eexists. split; [exact Hrun|]. simpl.
  rewrite (AddChild_attributes _ _ _ _ _ _ Hadd).
  rewrite lookup_app_r, Nat.sub_diag by lia. reflexivity.
Qed.

Lemma StartElement_ignores_attribute_errors_witness :
  exists st',
    TreeBuilder.StartElement startedWorld "a" "" "" [] duplicateAttrs
    = Done (st', None) /\
    t_node (t st') = Some 1%nat.
Proof.
  apply (StartElement_ignores_attribute_errors startedWorld 0%nat "a" "" "" []
                                               duplicateAttrs).
  - reflexivity.
  - simpl. lia.
  - simpl. intros n Hn. discriminate Hn.
Defined.

(** On that event the second [id] is rejected by [SetAttribute], the element
    keeps the first value, and the event still succeeds. *)
Example StartElement_duplicate_id :
  exists st' nd,
    TreeBuilder.StartElement startedWorld "a" "" "" [] duplicateAttrs
    = Done (st', None) /\
    mem st' !! 1%nat = Some (OElement nd) /\
    properties nd = [mkAttribute "id" "1"; mkAttribute "class" "c"] /\
    SetAttribute (mem st') 1%nat "id" "2" = Done (mem st', Some ErrDuplicateAttribute).
Proof.
  eexists; eexists. split; [vm_compute; reflexivity|].
  repeat split; reflexivity.
Qed.

(** ** UTF-8: every scalar value decodes from its encoding *)

Section Utf8RoundTrip.
Import utf8.

Lemma land_shiftl_low (x y n : Z) :
  0 <= n -> 0 <= y < 2 ^ n -> Z.land (Z.shiftl x n) y = 0.
Proof.
  intros Hn Hy. apply Z.bits_inj'. intros i Hi.
  rewrite Z.land_spec, Z.bits_0.
  destruct (Z.lt_ge_cases i n) as [Hlt|Hge].
  - rewrite Z.shiftl_spec_low by lia. reflexivity.
  - assert (Z.testbit y i = false) as ->; [|apply andb_false_r].
    destruct (Z.eq_dec y 0) as [->|Hy0]; [apply Z.bits_0|].
    apply Z.bits_above_log2; [lia|].
    apply Z.log2_lt_pow2; [lia|].
    apply Z.lt_le_trans with (2 ^ n); [lia|].
    apply Z.pow_le_mono_r; lia.
Qed.

(** An [|] of a shifted value with low bits is a sum. *)
Lemma lor_shiftl_add (x y n : Z) :
  0 <= n -> 0 <= y < 2 ^ n -> Z.lor (Z.shiftl x n) y = x * 2 ^ n + y.
Proof.
  intros Hn Hy.
  rewrite <- Z.lxor_lor by (apply land_shiftl_low; assumption).
  rewrite <- Z.add_nocarry_lxor by (apply land_shiftl_low; assumption).
  rewrite Z.shiftl_mul_pow2 by assumption. reflexivity.
Qed.

Lemma land_maskx (x : Z) : Z.land x maskx = x mod 64.
Proof. change maskx with (Z.ones 6). rewrite Z.land_ones by lia. reflexivity. Qed.
Lemma land_mask2 (x : Z) : Z.land x mask2 = x mod 32.
Proof. change mask2 with (Z.ones 5). rewrite Z.land_ones by lia. reflexivity. Qed.
Lemma land_mask3 (x : Z) : Z.land x mask3 = x mod 16.
Proof. change mask3 with (Z.ones 4). rewrite Z.land_ones by lia. reflexivity. Qed.
Lemma land_mask4 (x : Z) : Z.land x mask4 = x mod 8.
Proof. change mask4 with (Z.ones 3). rewrite Z.land_ones by lia. reflexivity. Qed.

(** The tag bits of the four kinds of bytes. *)
Lemma lor_tx (b : Z) : 0 <= b < 64 -> Z.lor 0x80 b = 0x80 + b.
Proof.
  intros Hb. change 0x80 with (Z.shiftl 2 6) at 1.
  rewrite lor_shiftl_add by lia. reflexivity.
Qed.
Lemma lor_t2 (a : Z) : 0 <= a < 32 -> Z.lor 0xC0 a = 0xC0 + a.
Proof.
  intros Ha. change 0xC0 with (Z.shiftl 6 5) at 1.
  rewrite lor_shiftl_add by lia. reflexivity.
Qed.
Lemma lor_t3 (a : Z) : 0 <= a < 16 -> Z.lor 0xE0 a = 0xE0 + a.
Proof.
  intros Ha. change 0xE0 with (Z.shiftl 14 4) at 1.
  rewrite lor_shiftl_add by lia. reflexivity.
Qed.
Lemma lor_t4 (a : Z) : 0 <= a < 8 -> Z.lor 0xF0 a = 0xF0 + a.
Proof.
  intros Ha. change 0xF0 with (Z.shiftl 30 3) at 1.
  rewrite lor_shiftl_add by lia. reflexivity.
Qed.

Ltac case_first :=
  unfold first;
  repeat match goal with
         | |- context [?x <? ?y] => destruct (Z.ltb_spec x y); try lia
         | |- context [?x =? ?y] => destruct (Z.eqb_spec x y); try lia
         end; try reflexivity.

Lemma first_as (b : Z) : b < 0x80 -> first b = as_.
Proof. intros. case_first. Qed.
Lemma first_s1 (b : Z) : 0xC2 <= b <= 0xDF -> first b = s1.
Proof. intros. case_first. Qed.
Lemma first_s3 (b : Z) : 0xE1 <= b <= 0xEC \/ 0xEE <= b <= 0xEF -> first b = s3.
Proof. intros. case_first. Qed.
Lemma first_s6 (b : Z) : 0xF1 <= b <= 0xF3 -> first b = s6.
Proof. intros. case_first. Qed.

Lemma in_range_false (b lo hi : Z) :
  lo <= b <= hi -> (b <? lo) || (hi <? b) = false.
Proof.
  intros. destruct (Z.ltb_spec b lo); [lia|]. destruct (Z.ltb_spec hi b); [lia|].
  reflexivity.
Qed.

(** [DecodeRune] on a one-byte sequence. *)
Lemma DecodeRune_one (p0 : Z) (tl : list Z) :
  p0 < 0x80 -> DecodeRune (p0 :: tl) = (p0, 1%nat).
Proof.
  intros Hp. unfold DecodeRune. rewrite first_as by assumption. reflexivity.
Qed.

(** [DecodeRune] on a well-formed two-byte sequence. *)
Lemma DecodeRune_two (p0 b1 : Z) (tl : list Z) :
  first p0 = s1 -> locb <= b1 <= hicb ->
  DecodeRune (p0 :: b1 :: tl)
  = (Z.lor (Z.shiftl (Z.land p0 mask2) 6) (Z.land b1 maskx), 2%nat).
Proof.
  intros Hf Hb. unfold DecodeRune. rewrite Hf.
  change (as_ <=? s1) with false.
  change (Z.to_nat (Z.land s1 7)) with 2%nat.
  change (acceptRanges (Z.shiftr s1 4)) with (locb, hicb).
  cbv zeta iota. simpl length. simpl Nat.ltb. simpl fst; simpl snd.
  rewrite in_range_false by assumption. reflexivity.
Qed.

(** [DecodeRune] on a well-formed three-byte sequence. *)
Lemma DecodeRune_three (p0 b1 b2 x lo hi : Z) (tl : list Z) :
  first p0 = x -> three x lo hi -> lo <= b1 <= hi -> locb <= b2 <= hicb ->
  DecodeRune (p0 :: b1 :: b2 :: tl)
  = (Z.lor (Z.lor (Z.shiftl (Z.land p0 mask3) 12) (Z.shiftl (Z.land b1 maskx) 6))
           (Z.land b2 maskx), 3%nat).
Proof.
  intros Hf Hx Hb1 Hb2. unfold DecodeRune. rewrite Hf.
  destruct Hx as [(-> & -> & ->)|[(-> & -> & ->)|(-> & -> & ->)]].
  - change (as_ <=? s2) with false.
    change (Z.to_nat (Z.land s2 7)) with 3%nat.
    change (acceptRanges (Z.shiftr s2 4)) with (0xA0, hicb).
    cbv zeta iota. simpl length. simpl Nat.ltb. simpl Nat.leb. simpl fst; simpl snd.
    rewrite !in_range_false by assumption. reflexivity.
  - change (as_ <=? s3) with false.
    change (Z.to_nat (Z.land s3 7)) with 3%nat.
    change (acceptRanges (Z.shiftr s3 4)) with (locb, hicb).
    cbv zeta iota. simpl length. simpl Nat.ltb. simpl Nat.leb. simpl fst; simpl snd.
    rewrite !in_range_false by assumption. reflexivity.
  - change (as_ <=? s4) with false.
    change (Z.to_nat (Z.land s4 7)) with 3%nat.
    change (acceptRanges (Z.shiftr s4 4)) with (locb, 0x9F).
    cbv zeta iota. simpl length. simpl Nat.ltb. simpl Nat.leb. simpl fst; simpl snd.
    rewrite !in_range_false by assumption. reflexivity.
Qed.

(** [DecodeRune] on a well-formed four-byte sequence. *)
Lemma DecodeRune_four (p0 b1 b2 b3 x lo hi : Z) (tl : list Z) :
  first p0 = x -> four x lo hi -> lo <= b1 <= hi ->
  locb <= b2 <= hicb -> locb <= b3 <= hicb ->
  DecodeRune (p0 :: b1 :: b2 :: b3 :: tl)
  = (Z.lor (Z.lor (Z.lor (Z.shiftl (Z.land p0 mask4) 18)
                         (Z.shiftl (Z.land b1 maskx) 12))
                  (Z.shiftl (Z.land b2 maskx) 6))
           (Z.land b3 maskx), 4%nat).
Proof.
  intros Hf Hx Hb1 Hb2 Hb3. unfold DecodeRune. rewrite Hf.
  destruct Hx as [(-> & -> & ->)|[(-> & -> & ->)|(-> & -> & ->)]].
  - change (as_ <=? s5) with false.
    change (Z.to_nat (Z.land s5 7)) with 4%nat.
    change (acceptRanges (Z.shiftr s5 4)) with (0x90, hicb).
    cbv zeta iota. simpl length. simpl Nat.ltb. simpl Nat.leb. simpl fst; simpl snd.
    rewrite !in_range_false by assumption. reflexivity.
  - change (as_ <=? s6) with false.
    change (Z.to_nat (Z.land s6 7)) with 4%nat.
    change (acceptRanges (Z.shiftr s6 4)) with (locb, hicb).
    cbv zeta iota. simpl length. simpl Nat.ltb. simpl Nat.leb. simpl fst; simpl snd.
    rewrite !in_range_false by assumption. reflexivity.
  - change (as_ <=? s7) with false.
    change (Z.to_nat (Z.land s7 7)) with 4%nat.
    change (acceptRanges (Z.shiftr s7 4)) with (locb, 0x8F).
    cbv zeta iota. simpl length. simpl Nat.ltb. simpl Nat.leb. simpl fst; simpl snd.
    rewrite !in_range_false by assumption. reflexivity.
Qed.

Lemma lor_mul_add (x y k : Z) (n : Z) :
  0 <= n -> k = 2 ^ n -> 0 <= y < k -> Z.lor (x * k) y = x * k + y.
Proof.
  intros Hn -> Hy. rewrite <- Z.shiftl_mul_pow2 by assumption.
  rewrite lor_shiftl_add by assumption.
  rewrite Z.shiftl_mul_pow2 by assumption. reflexivity.
Qed.

Lemma shiftl_mul (x k n : Z) : 0 <= n -> k = 2 ^ n -> Z.shiftl x n = x * k.
Proof. intros Hn ->. apply Z.shiftl_mul_pow2. assumption. Qed.

Lemma mod_add_tag (t x k : Z) : 0 < k -> t mod k = 0 -> 0 <= x < k -> (t + x) mod k = x.
Proof.
  intros Hk Ht Hx. rewrite <- Z.add_mod_idemp_l, Ht by lia. simpl.
  apply Z.mod_small. assumption.
Qed.

(** Decoding the two bytes built from the digits [a], [b] of a rune. *)
Lemma DecodeRune_digits2 (a b : Z) (tl : list Z) :
  2 <= a < 32 -> 0 <= b < 64 ->
  DecodeRune (Z.lor 0xC0 a :: Z.lor 0x80 b :: tl) = (a * 64 + b, 2%nat).
Proof.
  intros Ha Hb. rewrite lor_t2, lor_tx by lia.
  rewrite DecodeRune_two; [|apply first_s1; lia|unfold locb, hicb; lia].
  rewrite land_mask2, land_maskx.
  rewrite (mod_add_tag 0xC0 a 32), (mod_add_tag 0x80 b 64) by (reflexivity || lia).
  rewrite (shiftl_mul a 64 6) by (reflexivity || lia).
  rewrite (lor_mul_add a b 64 6) by (reflexivity || lia). reflexivity.
Qed.

(** Decoding the three bytes built from the digits of a rune; the
    conditions on [b] exclude the overlong forms and the surrogates. *)
Lemma DecodeRune_digits3 (a b c : Z) (tl : list Z) :
  0 <= a < 16 -> 0 <= b < 64 -> 0 <= c < 64 ->
  (a = 0 -> 32 <= b) -> (a = 13 -> b < 32) ->
  DecodeRune (Z.lor 0xE0 a :: Z.lor 0x80 b :: Z.lor 0x80 c :: tl)
  = (a * 4096 + b * 64 + c, 3%nat).
Proof.
  intros Ha Hb Hc Hlong Hsurr. rewrite lor_t3, !lor_tx by lia.
  assert (exists x lo hi, first (0xE0 + a) = x /\ three x lo hi /\ lo <= 0x80 + b <= hi)
    as (x & lo & hi & Hf & Hx & Hr).
  { unfold three, locb, hicb.
    destruct (Z.eq_dec a 0) as [->|H0].
    - exists s2, 0xA0, 0xBF. specialize (Hlong eq_refl).
      split; [reflexivity|]. split; [tauto|lia].
    - destruct (Z.eq_dec a 13) as [->|H13].
      + exists s4, 0x80, 0x9F. specialize (Hsurr eq_refl).
        split; [reflexivity|]. split; [tauto|lia].
      + exists s3, 0x80, 0xBF. split; [apply first_s3; lia|]. split; [tauto|lia]. }
  rewrite (DecodeRune_three _ _ _ x lo hi tl Hf Hx Hr) by (unfold locb, hicb; lia).
  rewrite land_mask3, !land_maskx.
  rewrite (mod_add_tag 0xE0 a 16), (mod_add_tag 0x80 b 64), (mod_add_tag 0x80 c 64)
    by (reflexivity || lia).
  rewrite (shiftl_mul a 4096 12), (shiftl_mul b 64 6) by (reflexivity || lia).
  rewrite (lor_mul_add a (b * 64) 4096 12) by (reflexivity || lia).
  replace (a * 4096 + b * 64) with ((a * 64 + b) * 64) by lia.
  rewrite (lor_mul_add (a * 64 + b) c 64 6) by (reflexivity || lia). reflexivity.
Qed.

(** Decoding the four bytes built from the digits of a rune; the conditions
    on [b] exclude the overlong forms and the values above [MaxRune]. *)
Lemma DecodeRune_digits4 (a b c d : Z) (tl : list Z) :
  0 <= a <= 4 -> 0 <= b < 64 -> 0 <= c < 64 -> 0 <= d < 64 ->
  (a = 0 -> 16 <= b) -> (a = 4 -> b < 16) ->
  DecodeRune (Z.lor 0xF0 a :: Z.lor 0x80 b :: Z.lor 0x80 c :: Z.lor 0x80 d :: tl)
  = (a * 262144 + b * 4096 + c * 64 + d, 4%nat).
Proof.
  intros Ha Hb Hc Hd Hlong Hmax. rewrite lor_t4, !lor_tx by lia.
  assert (exists x lo hi, first (0xF0 + a) = x /\ four x lo hi /\ lo <= 0x80 + b <= hi)
    as (x & lo & hi & Hf & Hx & Hr).
  { unfold four, locb, hicb.
    destruct (Z.eq_dec a 0) as [->|H0].
    - exists s5, 0x90, 0xBF. specialize (Hlong eq_refl).
      split; [reflexivity|]. split; [tauto|lia].
    - destruct (Z.eq_dec a 4) as [->|H4].
      + exists s7, 0x80, 0x8F. specialize (Hmax eq_refl).
        split; [reflexivity|]. split; [tauto|lia].
      + exists s6, 0x80, 0xBF. split; [apply first_s6; lia|]. split; [tauto|lia]. }
  rewrite (DecodeRune_four _ _ _ _ x lo hi tl Hf Hx Hr) by (unfold locb, hicb; lia).
  rewrite land_mask4, !land_maskx.
  rewrite (mod_add_tag 0xF0 a 8), (mod_add_tag 0x80 b 64), (mod_add_tag 0x80 c 64),
    (mod_add_tag 0x80 d 64) by (reflexivity || lia).
  rewrite (shiftl_mul a 262144 18), (shiftl_mul b 4096 12), (shiftl_mul c 64 6)
    by (reflexivity || lia).
  rewrite (lor_mul_add a (b * 4096) 262144 18) by (reflexivity || lia).
  replace (a * 262144 + b * 4096) with ((a * 64 + b) * 4096) by lia.
  rewrite (lor_mul_add (a * 64 + b) (c * 64) 4096 12) by (reflexivity || lia).
  replace ((a * 64 + b) * 4096 + c * 64) with (((a * 64 + b) * 64 + c) * 64) by lia.
  rewrite (lor_mul_add ((a * 64 + b) * 64 + c) d 64 6) by (reflexivity || lia).
  f_equal; lia.
Qed.

Lemma shiftr_div (r k n : Z) : 0 <= n -> k = 2 ^ n -> Z.shiftr r n = r / k.
Proof. intros Hn ->. apply Z.shiftr_div_pow2. assumption. Qed.

(** Every Unicode scalar value is decoded back from its encoding, with the
    width of that encoding, whatever follows it. *)
Lemma DecodeRune_EncodeRune (r : Z) (tl : list Z) :
  scalar r ->
  DecodeRune (EncodeRune r ++ tl) = (r, length (EncodeRune r)).
Proof.
  unfold scalar, surrogateMin, surrogateMax, MaxRune. intros Hr.
  unfold EncodeRune, surrogateMin, surrogateMax, MaxRune.
  destruct (Z.leb_spec 0 r); [|lia].
  destruct (Z.leb_spec r 0x7F); simpl andb; cbv iota.
  { simpl. apply DecodeRune_one. lia. }
  destruct (Z.leb_spec r 0x7FF); cbv iota.
  { rewrite (shiftr_div r 64 6), land_maskx by (reflexivity || lia).
    simpl app. simpl length.
    rewrite DecodeRune_digits2 by (Z.div_mod_to_equations; lia).
    f_equal. Z.div_mod_to_equations; lia. }
  destruct (Z.ltb_spec r 0); [lia|].
  destruct (Z.ltb_spec 0x10FFFF r); [lia|].
  destruct (Z.leb_spec 0xD800 r), (Z.leb_spec r 0xDFFF); try lia; simpl orb; cbv iota.
  all: destruct (Z.leb_spec r 0xFFFF); cbv iota.
  all: rewrite ?(shiftr_div r 64 6), ?(shiftr_div r 4096 12), ?(shiftr_div r 262144 18),
         ?land_maskx by (reflexivity || lia);
       simpl app; simpl length.
  all: first [ rewrite DecodeRune_digits3 by (Z.div_mod_to_equations; lia)
             | rewrite DecodeRune_digits4 by (Z.div_mod_to_equations; lia) ].
  all: f_equal; Z.div_mod_to_equations; lia.
Qed.

End Utf8RoundTrip.

(** ** C2: the escaping table *)

(** The switches of the two functions are the table with the band
    [[0x80, 0xE0)]. *)
Lemma attrSwitch_table (r : Z) (width : nat) :
  attrSwitch r width = specEscapingTable 0xE0 AttributeValue r width.
Proof.
  unfold attrSwitch, specEscapingTable.
  repeat match goal with
         | |- context [r =? ?k] =>
           lazymatch k with
           | 0xFFFD => fail
           | _ => destruct (Z.eqb_spec r k) as [->|?]; [reflexivity|]
           end
         end.
  fold (xmlPermitted r). fold (isInCharacterRange r).
  replace (negb ((32 <=? r) && (r <? 128)) && (r <? 224))
    with ((r <? 32) || ((128 <=? r) && (r <? 224))).
  - reflexivity.
  - destruct (Z.ltb_spec r 32), (Z.leb_spec 32 r), (Z.ltb_spec r 128),
      (Z.leb_spec 128 r), (Z.ltb_spec r 224); simpl; try reflexivity; lia.
Qed.

Lemma textSwitch_table (r : Z) (width : nat) :
  textSwitch false r width = specEscapingTable 0xE0 TextContent r width.
Proof.
  unfold textSwitch, specEscapingTable.
  destruct (Z.eqb_spec r 9) as [->|?]; [reflexivity|].
  repeat match goal with
         | |- context [r =? ?k] =>
           lazymatch k with
           | 0xFFFD => fail
           | _ => destruct (Z.eqb_spec r k) as [->|?]; [reflexivity|]
           end
         end.
  fold (xmlPermitted r). fold (isInCharacterRange r).
  replace (negb (false || (32 <=? r) && (r <? 128)) && (r <? 224))
    with ((r <? 32) || ((128 <=? r) && (r <? 224))).
  - reflexivity.
  - destruct (Z.ltb_spec r 32), (Z.leb_spec 32 r), (Z.ltb_spec r 128),
      (Z.leb_spec 128 r), (Z.ltb_spec r 224); simpl; try reflexivity; lia.
Qed.

(** Once [i] has reached the end of [s], the loop is left and the pending
    bytes are flushed, whatever fuel remains. *)
Lemma escapeLoop_end sw (fuel : nat) (out : Buffer) (s : list Z) (i last : nat) :
  (length s <= i)%nat ->
  escapeLoop sw fuel out s i last = Done (out ++ drop last s, None).
Proof.
  intros Hi. destruct fuel; simpl;
    (destruct (Nat.ltb_spec i (length s)); [lia|reflexivity]).
Qed.

(** The loop invariant: with [last <= i], what the loop writes from [i] on
    is the pending bytes [s[last:i]] followed by the escaping of the rest. *)
Lemma escapeLoop_runes sw (fuel : nat) :
  forall (out : Buffer) (s : list Z) (i last : nat),
    (last <= i <= length s)%nat ->
    (length s - i <= fuel)%nat ->
    escapeLoop sw fuel out s i last
    = Done (out ++ take (i - last) (drop last s) ++ escapeRunes sw fuel (drop i s), None).
Proof.
  induction fuel as [|fuel IH]; intros out s i last Hi Hfuel.
  - rewrite escapeLoop_end by lia. simpl. rewrite app_nil_r.
    rewrite take_ge by (rewrite length_drop; lia). reflexivity.
  - destruct (Nat.ltb_spec i (length s)) as [Hlt|Hge].
    + assert (drop i s <> []) as Hne.
      { intros Hnil. apply (f_equal length) in Hnil.
        rewrite length_drop in Hnil. simpl in Hnil. lia. }
      pose proof (DecodeRune_width_pos (drop i s) Hne) as Hpos.
      pose proof (DecodeRune_width_le (drop i s)) as Hle.
      rewrite length_drop in Hle.
      simpl escapeLoop. destruct (Nat.ltb_spec i (length s)) as [_|?]; [|lia].
      simpl escapeRunes.
      destruct (drop i s) as [|b rest] eqn:Hdrop; [congruence|].
      rewrite <- Hdrop in *. clear b rest Hdrop.
      destruct (utf8.DecodeRune (drop i s)) as [r width]. simpl in Hpos, Hle.
      rewrite drop_drop.
      destruct (sw r width) as [esc|].
      * unfold Write, Buffer_Writer.
        rewrite IH by lia.
        rewrite Nat.sub_diag, take_0.
        replace (i + width - width - last)%nat with (i - last)%nat by lia.
        simpl. rewrite <- !app_assoc. reflexivity.
      * rewrite IH by lia.
        replace (i + width - last)%nat with ((i - last) + width)%nat by lia.
        rewrite <- take_take_drop, drop_drop.
        replace (last + (i - last))%nat with i by lia.
        rewrite <- !app_assoc. reflexivity.
    + rewrite escapeLoop_end by lia.
      rewrite (drop_ge s i) by lia.
      rewrite take_ge by (rewrite length_drop; lia).
      destruct fuel; simpl; rewrite app_nil_r; reflexivity.
Qed.

Lemma escapeRunes_ext sw1 sw2 (fuel : nat) :
  (forall r width, sw1 r width = sw2 r width) ->
  forall p, escapeRunes sw1 fuel p = escapeRunes sw2 fuel p.
Proof.
  intros Hsw. induction fuel as [|fuel IH]; intros p; [reflexivity|].
  simpl. destruct p as [|b p']; [reflexivity|].
  destruct (utf8.DecodeRune (b :: p')) as [r width].
  rewrite Hsw, IH. reflexivity.
Qed.

(** Both functions, on any bytes: the output is the escaping, value by
    value, prescribed by the table with the band [[0x80, 0xE0)]. *)
Lemma escape_runes_table (out : Buffer) (s : list Z) :
  escapeAttrValue out s
  = Done (out ++ escapeRunes (specEscapingTable 0xE0 AttributeValue) (length s) s, None) /\
  escapeText out s false
  = Done (out ++ escapeRunes (specEscapingTable 0xE0 TextContent) (length s) s, None).
Proof.
  unfold escapeAttrValue, escapeText.
  rewrite !escapeLoop_runes by lia.
  rewrite Nat.sub_diag, take_0, !drop_0. simpl.
  rewrite (escapeRunes_ext attrSwitch _ _ attrSwitch_table).
  rewrite (escapeRunes_ext (textSwitch false) _ _ textSwitch_table).
  split; reflexivity.
Qed.

(** The loop on a string that is one encoded value: the replacement chosen
    by the switch is written, or the string itself when the switch keeps
    the value. *)
Lemma escapeLoop_single sw (out : Buffer) (s : list Z) (r : Z) :
  s <> [] ->
  utf8.DecodeRune s = (r, length s) ->
  escapeLoop sw (length s) out s 0 0
  = Done (out ++ match sw r (length s) with Some esc => esc | None => s end, None).
Proof.
  intros Hs Hdec. destruct s as [|b s']; [congruence|].
  remember (b :: s') as s eqn:Es.
  assert (length s = S (length s')) as Hlen by (subst s; reflexivity).
  rewrite Hlen at 1. simpl escapeLoop.
  destruct (Nat.ltb_spec 0 (length s)) as [_|Hlt]; [|lia].
  rewrite drop_0, Hdec. simpl Nat.add.
  destruct (sw r (length s)) as [esc|].
  - rewrite Nat.sub_diag. simpl.
    unfold Write, Buffer_Writer.
    rewrite escapeLoop_end by lia.
    rewrite drop_all, !app_nil_r. reflexivity.
  - rewrite escapeLoop_end by lia. rewrite drop_0. reflexivity.
Qed.

(** Both functions on one encoded value, or on one undecodable byte, in
    terms of the table with the band [[0x80, 0xE0)]. *)
Lemma escape_single_table (out : Buffer) (s : list Z) (r : Z) :
  s <> [] ->
  utf8.DecodeRune s = (r, length s) ->
  escapeAttrValue out s = Done (out ++ specEscaped 0xE0 AttributeValue r s, None) /\
  escapeText out s false = Done (out ++ specEscaped 0xE0 TextContent r s, None).
Proof.
  intros Hs Hdec. unfold escapeAttrValue, escapeText, specEscaped.
  rewrite !(escapeLoop_single _ out s r Hs Hdec).
  rewrite attrSwitch_table, textSwitch_table. split; reflexivity.
Qed.

Lemma EncodeRune_nonempty (r : Z) : utf8.EncodeRune r <> [].
Proof.
  unfold utf8.EncodeRune.
  repeat match goal with |- context [if ?b then _ else _] => destruct b end;
    discriminate.
Qed.

(** C2, as stated, fails at U+00DF: it lies outside the band [[0x80, 0xDF)]
    and inside the permitted ranges, so the table of the claim lets its two
    bytes pass through, while both functions write the reference [&#xDF;]. *)
Lemma escaping_table_fails_at_DF :
  utf8.scalar 0xDF /\
  utf8.EncodeRune 0xDF = [0xC3; 0x9F] /\
  specEscaped 0xDF AttributeValue 0xDF (utf8.EncodeRune 0xDF) = [0xC3; 0x9F] /\
  escapeAttrValue ([] : Buffer) (utf8.EncodeRune 0xDF) = Done (bytes "&#xDF;", None) /\
  escapeText ([] : Buffer) (utf8.EncodeRune 0xDF) false = Done (bytes "&#xDF;", None) /\
  ~ escapesAsTable 0xDF [] 0xDF.
Proof.
  split; [unfold utf8.scalar, utf8.surrogateMin; lia|].
  repeat (split; [vm_compute; reflexivity|]).
  intros [Hattr _]. vm_compute in Hattr. discriminate Hattr.
Qed.

(** C2 (amended). For every Unicode scalar value [r], [escapeAttrValue] and
    [escapeText] (newline escaping off) write for the encoding of [r]
    exactly what the table prescribes when its band of hexadecimal
    references is [[0x80, 0xE0)] instead of [[0x80, 0xDF)]; and a byte that
    does not decode (a one-byte-wide U+FFFD) is replaced by the encoding of
    U+FFFD by both. *)
Theorem escaping_matches_table (out : Buffer) :
  (forall r, utf8.scalar r -> escapesAsTable 0xE0 out r) /\
  (forall b, utf8.DecodeRune [b] = (utf8.RuneError, 1%nat) ->
             escapeAttrValue out [b] = Done (out ++ esc_fffd, None) /\
             escapeText out [b] false = Done (out ++ esc_fffd, None)).
Proof.
  split.
  - intros r Hr. unfold escapesAsTable.
    apply escape_single_table; [apply EncodeRune_nonempty|].
    rewrite <- (app_nil_r (utf8.EncodeRune r)) at 1.
    apply DecodeRune_EncodeRune. exact Hr.
  - intros b Hb.
    destruct (escape_single_table out [b] utf8.RuneError) as [Hattr Htext];
      [discriminate|exact Hb|].
    rewrite Hattr, Htext. split; reflexivity.
Qed.

Lemma escaping_matches_table_witness :
  escapesAsTable 0xE0 [] 0xDF /\
  escapeAttrValue ([] : Buffer) [0xFF] = Done (esc_fffd, None) /\
  escapeText ([] : Buffer) [0xFF] false = Done (esc_fffd, None).
Proof.
  destruct (escaping_matches_table []) as [Hscalar Hbyte].
  split.
  - apply Hscalar. unfold utf8.scalar, utf8.surrogateMin. lia.
  - apply (Hbyte 0xFF). reflexivity.
Defined.

(** The rows of the table, read off the functions themselves. *)
Example escaping_rows :
  escapeAttrValue ([] : Buffer) [34] = Done (bytes "&#34;", None) /\
  escapeText ([] : Buffer) [34] false = Done (bytes "&#34;", None) /\
  escapeAttrValue ([] : Buffer) [9] = Done (bytes "&#9;", None) /\
  escapeAttrValue ([] : Buffer) [10] = Done (bytes "&#10;", None) /\
  escapeText ([] : Buffer) [9] false = Done ([9], None) /\
  escapeText ([] : Buffer) [10] false = Done ([10], None) /\
  escapeText ([] : Buffer) [10] true = Done (bytes "&#10;", None) /\
  escapeText ([] : Buffer) (bytes "'&<>") false = Done (bytes "&#39;&amp;&lt;&gt;", None) /\
  escapeAttrValue ([] : Buffer) (bytes "'&<>") = Done (bytes "&#39;&amp;&lt;&gt;", None) /\
  escapeText ([] : Buffer) [13; 1; 0xC2; 0x80] false = Done (bytes "&#13;&#x1;&#x80;", None) /\
  escapeText ([] : Buffer) [0xC3; 0x9E] false = Done (bytes "&#xDE;", None) /\
  escapeText ([] : Buffer) [0xC3; 0xA0] false = Done ([0xC3; 0xA0], None) /\
  escapeText ([] : Buffer) [0xEF; 0xBF; 0xBE] false = Done (esc_fffd, None) /\
  escapeText ([] : Buffer) [0xEF; 0xBF; 0xBD] false = Done ([0xEF; 0xBF; 0xBD], None).
Proof. repeat split; vm_compute; reflexivity. Qed.

(* ===================================================================== *)
(** * Further properties *)
(* ===================================================================== *)

(** ** The dumper never reports an error *)

Section DumperErrors.
Context {W : Type} `{Writer W}.

Lemma dump_no_error (fuel : nat) :
  (forall (h : heap) (out : W) (n : ptr) (r : W * option error),
      DumpNode fuel h out n = Done r -> snd r = None) /\
  (forall (h : heap) (out : W) (c : option ptr) (r : W * option error),
      dumpSiblings fuel h out c = Done r -> snd r = None).
Proof.
  induction fuel as [|fuel [IHn IHs]]; [split; intros; discriminate|].
  split.
  - intros h out n r. simpl. unfold deref.
    destruct (h !! n) as [o|]; simpl; [|discriminate].
    destruct o as [d|e|e|e|e]; simpl.
    + intros Heq. injection Heq as <-. reflexivity.
    + destruct (dumpAttributes _ (properties e)) as [out1| |]; simpl; try discriminate.
      destruct (FirstChild (OElement e)) as [c|]; simpl.
      * destruct (dumpSiblings fuel h _ (Some c)) as [[out2 err]| |] eqn:Hs;
          simpl; try discriminate.
        apply IHs in Hs. simpl in Hs. subst err.
        intros Heq. injection Heq as <-. reflexivity.
      * intros Heq. injection Heq as <-. reflexivity.
    + destruct (bool_decide _); [discriminate|].
      destruct (escapeText out (content e) false) as [[out1 err]| |]; simpl;
        try discriminate.
      intros Heq. injection Heq as <-. reflexivity.
    + intros Heq. injection Heq as <-. reflexivity.
    + intros Heq. injection Heq as <-. reflexivity.
  - intros h out c r. simpl. destruct c as [c|].
    + destruct (DumpNode fuel h out c) as [[out1 err]| |] eqn:Hn; simpl;
        try discriminate.
      apply IHn in Hn. simpl in Hn. subst err.
      destruct (deref h c) as [o| |]; simpl; try discriminate.
      apply IHs.
    + intros Heq. injection Heq as <-. reflexivity.
Qed.

End DumperErrors.

(** X7. The dumper never reports an error: every write, and every call of the
    escaping functions, has its result dropped. Whatever the sink does,
    [DumpNode] and [DumpDoc] return [nil] when they return. *)
Theorem Dumper_never_reports_errors {W : Type} `{Writer W}
        (fuel : nat) (h : heap) (out out' : W) (p : ptr) (err : option error) :
  (DumpNode fuel h out p = Done (out', err) -> err = None) /\
  (DumpDoc fuel h out p = Done (out', err) -> err = None).
Proof.
  split.
  - intros Hd. apply (proj1 (dump_no_error fuel)) in Hd. exact Hd.
  - unfold DumpDoc. simpl.
    destruct (DumpNode fuel h out p) as [[out1 e1]| |] eqn:Hn; simpl; try discriminate.
    apply (proj1 (dump_no_error fuel)) in Hn. simpl in Hn. subst e1.
    destruct (deref h p) as [o| |]; simpl; try discriminate.
    destruct (dumpSiblings fuel h out1 (FirstChild o)) as [[out2 e2]| |] eqn:Hs;
      simpl; try discriminate.
    apply (proj2 (dump_no_error fuel)) in Hs. simpl in Hs. subst e2.
    intros Heq. injection Heq as _ <-. reflexivity.
Qed.

Lemma Dumper_never_reports_errors_witness :
  DumpDoc 4 rootHiHeap (mkLimited 0 []) 0%nat = Done (mkLimited 0 [], None) /\
  (None : option error) = None.
Proof.
  split; [vm_compute; reflexivity|].
  apply (proj2 (Dumper_never_reports_errors 4 rootHiHeap (mkLimited 0 [])
                                            (mkLimited 0 []) 0%nat None)).
  vm_compute. reflexivity.
Defined.

(** ** Serialization of a tree *)

Lemma bytes_app (s1 s2 : string) : bytes (s1 +:+ s2) = bytes s1 ++ bytes s2.
Proof. induction s1 as [|c s1 IH]; simpl; [reflexivity|]. rewrite IH. reflexivity. Qed.

Lemma put_Buffer (out : Buffer) (s : string) : put out s = out ++ bytes s.
Proof. reflexivity. Qed.

Lemma putBytes_Buffer (out : Buffer) (p : list Z) : putBytes out p = out ++ p.
Proof. reflexivity. Qed.

(** On a buffer both escaping functions write the escaping of their input,
    value by value, and report no error. *)
Lemma escape_Buffer (out : Buffer) (s : list Z) (escapeNewline : bool) :
  escapeAttrValue out s = Done (out ++ escapeRunes attrSwitch (length s) s, None) /\
  escapeText out s escapeNewline
  = Done (out ++ escapeRunes (textSwitch escapeNewline) (length s) s, None).
Proof.
  unfold escapeAttrValue, escapeText.
  rewrite !escapeLoop_runes by lia.
  rewrite Nat.sub_diag, take_0, !drop_0. split; reflexivity.
Qed.

Lemma dumpAttributes_Buffer (attrs : list Attribute) :
  forall out : Buffer,
    dumpAttributes out attrs = Done (out ++ flat_map renderAttribute attrs).
Proof.
  induction attrs as [|a attrs IH]; intros out; simpl.
  - rewrite app_nil_r. reflexivity.
  - rewrite (proj1 (escape_Buffer _ (bytes (attr_value a)) false)). simpl.
    rewrite IH. rewrite !put_Buffer. unfold renderAttribute.
    rewrite <- !app_assoc. reflexivity.
Qed.

Lemma qualifiedName_element (e : node) :
  (if negb (String.eqb (Prefix e) "")
   then Prefix e +:+ ":" +:+ Name (OElement e) else Name (OElement e))
  = qualifiedName (name (base e)) (ns e).
Proof. unfold Prefix, qualifiedName, Name. destruct (ns e); reflexivity. Qed.

Lemma dump_repr (h : heap) :
  (forall p x, repr h p x ->
     exists fuel0, forall (fuel : nat) (out : Buffer),
         (fuel0 <= fuel)%nat ->
         DumpNode fuel h out p = Done (out ++ render x, None)) /\
  (forall c xs, reprs h c xs ->
     exists fuel0, forall (fuel : nat) (out : Buffer),
         (fuel0 <= fuel)%nat ->
         dumpSiblings fuel h out c = Done (out ++ flat_map render xs, None)).
Proof.
  apply repr_reprs_mut.
  - (* element *)
    intros p n xs Hp Hxs [f0 IH]. exists (S f0). intros fuel out Hfuel.
    destruct fuel as [|fuel]; [lia|]. simpl. unfold deref. rewrite Hp. simpl.
    rewrite dumpAttributes_Buffer. simpl.
    rewrite qualifiedName_element. unfold FirstChild. simpl.
    inversion Hxs as [Hnone|c o x xs' Hc Hx Hrest Hsome]; subst.
    + simpl. rewrite !put_Buffer.
      rewrite <- !app_assoc. reflexivity.
    + rewrite <- Hsome in IH. simpl. rewrite IH by lia. simpl. rewrite !put_Buffer.
      rewrite <- !app_assoc. reflexivity.
  - (* text *)
    intros p n Hp Hc. exists 1%nat. intros fuel out Hfuel.
    destruct fuel as [|fuel]; [lia|]. simpl. unfold deref. rewrite Hp. simpl.
    rewrite bool_decide_eq_false_2 by exact Hc.
    rewrite (proj2 (escape_Buffer out (content n) false)). reflexivity.
  - (* comment *)
    intros p n Hp. exists 1%nat. intros fuel out Hfuel.
    destruct fuel as [|fuel]; [lia|]. simpl. unfold deref. rewrite Hp. simpl.
    rewrite !put_Buffer, putBytes_Buffer. rewrite <- !app_assoc. reflexivity.
  - (* entity reference *)
    intros p n Hp. exists 1%nat. intros fuel out Hfuel.
    destruct fuel as [|fuel]; [lia|]. simpl. unfold deref. rewrite Hp. simpl.
    rewrite !put_Buffer. rewrite <- !app_assoc. reflexivity.
  - (* no sibling left *)
    exists 1%nat. intros fuel out Hfuel.
    destruct fuel as [|fuel]; [lia|]. simpl. rewrite app_nil_r. reflexivity.
  - (* one more sibling *)
    intros p o x xs Hp Hx [f1 IHx] Hxs [f2 IHxs].
    exists (S (Nat.max f1 f2)). intros fuel out Hfuel.
    destruct fuel as [|fuel]; [lia|]. simpl.
    rewrite IHx by lia. simpl. unfold deref. rewrite Hp. simpl.
    rewrite IHxs by lia. rewrite <- app_assoc. reflexivity.
Qed.

(** X8. Serialization of a tree. When the links below the node [p] lay out a
    finite tree [x] of elements, texts, comments and entity references,
    [DumpNode] terminates on [p] once it has enough fuel and appends to the
    buffer exactly the text of [x]: a start tag with the qualified name and
    the attributes in chain order, their values escaped; [/>] for an
    element without children, otherwise the children in order and the
    matching end tag; escaped text; comments followed by a line feed;
    entity references as [&name;]. No error is reported. *)
Theorem DumpNode_renders_tree (h : heap) (p : ptr) (x : xml) :
  repr h p x ->
  exists fuel0, forall (fuel : nat) (out : Buffer),
      (fuel0 <= fuel)%nat ->
      DumpNode fuel h out p = Done (out ++ render x, None).
Proof. apply (proj1 (dump_repr h)). Qed.

Lemma rootHi_repr :
  repr rootHiHeap 1%nat (XElement "root" None [] [XText (bytes "hi")]).
Proof.
  refine (repr_element rootHiHeap 1%nat
            (mkNode (mkDocnode "root" (Some 2%nat) (Some 2%nat) (Some 0%nat)
                               None None (Some 0%nat)) [] [] None)
            [XText (bytes "hi")] eq_refl _).
  refine (reprs_cons rootHiHeap 2%nat _ (XText (bytes "hi")) [] eq_refl _ _).
  - refine (repr_text rootHiHeap 2%nat
              (mkNode (mkDocnode "(text)" None None (Some 1%nat) None None (Some 0%nat))
                      (bytes "hi") [] None) eq_refl _).
    vm_compute. intros Heq. discriminate Heq.
  - apply reprs_nil.
Defined.

Lemma DumpNode_renders_tree_witness :
  exists fuel0, forall (fuel : nat) (out : Buffer),
      (fuel0 <= fuel)%nat ->
      DumpNode fuel rootHiHeap out 1%nat = Done (out ++ bytes "<root>hi</root>", None).
Proof.
  destruct (DumpNode_renders_tree rootHiHeap 1%nat
              (XElement "root" None [] [XText (bytes "hi")]) rootHi_repr)
    as [fuel0 Hdump].
  exists fuel0. intros fuel out Hfuel. rewrite (Hdump fuel out Hfuel). reflexivity.
Defined.

Lemma bind_Done {A B : Type} (a : A) (k : A -> outcome B) : Done a ≫= k = k a.
Proof. reflexivity. Qed.

(** The document node itself: the prologue and nothing else. *)
Lemma DumpNode_document (h : heap) (d : ptr) (doc : Document) (fuel : nat)
      (out : Buffer) :
  h !! d = Some (ODocument doc) ->
  DumpNode (S fuel) h out d = Done (out ++ renderProlog doc, None).
Proof.
  intros Hd. simpl. unfold deref. rewrite Hd. simpl.
  unfold renderProlog.
  destruct (String.eqb (encoding doc) ""); simpl negb; cbv iota;
    destruct (standalone doc =? StandaloneExplicitNo);
    try destruct (standalone doc =? StandaloneExplicitYes);
    rewrite !put_Buffer; rewrite <- ?app_assoc; simpl app; rewrite <- ?app_assoc;
      reflexivity.
Qed.

(** X9. Serialization of a document. When the top-level sibling chain of a
    document lays out the trees [xs], [DumpDoc] terminates with enough fuel
    and appends the prologue, the text of each tree in order, and one line
    feed. The prologue carries the version ([1.0] when none is set), the
    encoding when one is set, and the standalone declaration only when it
    is an explicit yes or no. *)
Theorem DumpDoc_renders_document (h : heap) (d : ptr) (doc : Document) (xs : list xml) :
  h !! d = Some (ODocument doc) ->
  reprs h (firstChild (dbase doc)) xs ->
  exists fuel0, forall (fuel : nat) (out : Buffer),
      (fuel0 <= fuel)%nat ->
      DumpDoc fuel h out d
      = Done (out ++ renderProlog doc ++ flat_map render xs ++ [10], None).
Proof.
  intros Hd Hxs.
  destruct (proj2 (dump_repr h) _ _ Hxs) as [f0 Hsib].
  exists (S f0). intros fuel out Hfuel.
  destruct fuel as [|fuel]; [lia|].
  unfold DumpDoc.
  rewrite (DumpNode_document h d doc fuel out Hd), bind_Done. cbv beta iota.
  unfold deref. rewrite Hd, bind_Done.
  change (FirstChild (ODocument doc)) with (firstChild (dbase doc)).
  rewrite Hsib by lia. rewrite bind_Done. cbv beta iota.
  rewrite put_Buffer. rewrite <- !app_assoc. reflexivity.
Qed.

Lemma DumpDoc_renders_document_witness :
  exists fuel0, forall (fuel : nat) (out : Buffer),
      (fuel0 <= fuel)%nat ->
      DumpDoc fuel rootHiHeap out 0%nat = Done (out ++ rootHiXML, None).
Proof.
  destruct (DumpDoc_renders_document rootHiHeap 0%nat
              (mkDocument (mkDocnode "(document)" (Some 1%nat) (Some 1%nat)
                                     None None None None)
                          "1.0" "" StandaloneNoXMLDecl (Some (mkDTD ∅ ∅)) None)
              [XElement "root" None [] [XText (bytes "hi")]] eq_refl)
    as [fuel0 Hdump].
  - refine (reprs_cons rootHiHeap 1%nat _ _ [] eq_refl rootHi_repr _).
    apply reprs_nil.
  - exists fuel0. intros fuel out Hfuel. rewrite (Hdump fuel out Hfuel). reflexivity.
Defined.

(** ** Entity lookup: what [GetEntity] changes and when it fails *)

Lemma setMem_same (st : world) : setMem (mem st) st = st.
Proof. destruct st; reflexivity. Qed.

(** Clearing and setting again the flag of a standalone document gives the
    heap back. *)
Lemma writeStandalone_restore (h : heap) (dp : ptr) (d : Document) :
  h !! dp = Some (ODocument d) ->
  standalone d = 1 ->
  TreeBuilder.writeStandalone (TreeBuilder.writeStandalone h dp 0) dp 1 = h.
Proof.
  intros Hd Hsa. apply list_eq. intros i.
  destruct (decide (dp = i)) as [<-|Hne].
  - rewrite (writeStandalone_lookup _ dp (setStandalone 0 d) 1)
      by (apply writeStandalone_lookup; exact Hd).
    rewrite setStandalone_restore by exact Hsa. symmetry. exact Hd.
  - rewrite !writeStandalone_other by exact Hne. reflexivity.
Qed.

(** The three ways through [GetEntity] once the predefined table did not
    answer and the context has a document. *)
Lemma GetEntity_paths (st : world) (dp : ptr) (d : Document) (nm : string) :
  ctx_doc (ctx st) = Some dp ->
  mem st !! dp = Some (ODocument d) ->
  (inSubset (ctx st) = 0 -> resolvePredefinedEntity nm = None) ->
  TreeBuilder.GetEntity st nm =
  if negb (standalone d =? 1) then Done (st, (Document_GetEntity d nm, None))
  else if inSubset (ctx st) =? 2 then
    Done (st, (Document_GetEntity (setStandalone 0 d) nm, None))
  else
    match Document_GetEntity d nm with
    | Some ret => Done (st, (Some ret, None))
    | None =>
      match Document_GetEntity (setStandalone 0 d) nm with
      | None => Done (setMem (TreeBuilder.writeStandalone (mem st) dp 0) st,
                      (None, Some (TreeBuilder.standaloneError nm)))
      | Some ret => Done (st, (Some ret, None))
      end
    end.
Proof.
  intros Hdoc Hd Hpre. unfold TreeBuilder.GetEntity.
  assert ((if inSubset (ctx st) =? 0 then resolvePredefinedEntity nm else None) = None)
    as ->.
  { destruct (Z.eqb_spec (inSubset (ctx st)) 0); auto. }
  rewrite Hdoc. unfold derefDocument, deref. rewrite Hd. simpl.
  destruct (Z.eqb_spec (standalone d) 1) as [Hsa|Hsa]; simpl; [|reflexivity].
  destruct (Z.eqb_spec (inSubset (ctx st)) 2) as [Hext|Hext].
  - rewrite (writeStandalone_lookup _ _ _ _ Hd). simpl.
    rewrite (writeStandalone_restore _ _ _ Hd Hsa), setMem_same. reflexivity.
  - destruct (Document_GetEntity d nm); [reflexivity|].
    rewrite (writeStandalone_lookup _ _ _ _ Hd). simpl.
    destruct (Document_GetEntity (setStandalone 0 d) nm); [|reflexivity].
    rewrite (writeStandalone_restore _ _ _ Hd Hsa), setMem_same. reflexivity.
Qed.

(** Either the predefined table answers, or [GetEntity] panics, or it
    takes one of the paths above. *)
Lemma GetEntity_cases (st : world) (nm : string) :
  (exists ret, inSubset (ctx st) = 0 /\ resolvePredefinedEntity nm = Some ret /\
               TreeBuilder.GetEntity st nm = Done (st, (Some ret, None))) \/
  (exists msg, TreeBuilder.GetEntity st nm = Panic msg) \/
  (exists dp d, ctx_doc (ctx st) = Some dp /\ mem st !! dp = Some (ODocument d) /\
                (inSubset (ctx st) = 0 -> resolvePredefinedEntity nm = None)).
Proof.
  unfold TreeBuilder.GetEntity.
  destruct (Z.eqb_spec (inSubset (ctx st)) 0) as [Hsub|Hsub].
  - destruct (resolvePredefinedEntity nm) as [ret|] eqn:Hpre.
    + left. exists ret. auto.
    + right. destruct (ctx_doc (ctx st)) as [dp|]; [|left; eauto].
      unfold derefDocument, deref.
      destruct (mem st !! dp) as [[d|e|e|e|e]|] eqn:Hd; simpl; try (left; eauto; fail).
      right. exists dp, d. auto.
  - right. destruct (ctx_doc (ctx st)) as [dp|]; [|left; eauto].
    unfold derefDocument, deref.
    destruct (mem st !! dp) as [[d|e|e|e|e]|] eqn:Hd; simpl; try (left; eauto; fail).
    right. exists dp, d. repeat split; auto. intros H0. contradiction.
Qed.

(** X10. A successful lookup leaves everything as it was: whenever [GetEntity]
    returns without an error, be it with an entity or with [nil], the heap
    (the standalone flag included), the builder and the context are
    unchanged. *)
Theorem GetEntity_success_keeps_state (st st' : world) (nm : string)
        (ret : option Entity) :
  TreeBuilder.GetEntity st nm = Done (st', (ret, None)) ->
  st' = st.
Proof.
  intros Hget.
  destruct (GetEntity_cases st nm)
    as [(r & _ & _ & Hpre)|[(msg & Hpanic)|(dp & d & Hdoc & Hd & Hpre)]].
  - rewrite Hpre in Hget. injection Hget as <- _. reflexivity.
  - rewrite Hpanic in Hget. discriminate Hget.
  - rewrite (GetEntity_paths st dp d nm Hdoc Hd Hpre) in Hget.
    destruct (negb (standalone d =? 1)); [injection Hget as <- _; reflexivity|].
    destruct (inSubset (ctx st) =? 2); [injection Hget as <- _; reflexivity|].
    destruct (Document_GetEntity d nm); [injection Hget as <- _; reflexivity|].
    destruct (Document_GetEntity (setStandalone 0 d) nm);
      [injection Hget as <- _; reflexivity|discriminate Hget].
Qed.

Lemma GetEntity_success_keeps_state_witness :
  TreeBuilder.GetEntity extSubsetWorld "copy"
  = Done (extSubsetWorld, (Some extEntity, None)).
Proof.
  assert (exists st', TreeBuilder.GetEntity extSubsetWorld "copy"
                      = Done (st', (Some extEntity, None))) as [st' Hget].
  { eexists. vm_compute. reflexivity. }
  rewrite Hget.
  rewrite (GetEntity_success_keeps_state extSubsetWorld st' "copy" _ Hget).
  reflexivity.
Defined.

(** X11. The only failure. [GetEntity] returns an error only on a document
    marked standalone, outside the external subset, for a name that both the
    lookup with the flag set and the retry with the flag cleared miss; the
    error is then the standalone error for that name and no entity comes
    with it. A miss anywhere else is not an error. *)
Theorem GetEntity_fails_only_on_standalone_miss
        (st st' : world) (nm : string) (ret : option Entity) (err : error) :
  TreeBuilder.GetEntity st nm = Done (st', (ret, Some err)) ->
  ret = None /\ err = TreeBuilder.standaloneError nm /\
  exists dp d,
    ctx_doc (ctx st) = Some dp /\ mem st !! dp = Some (ODocument d) /\
    standalone d = 1 /\ inSubset (ctx st) <> 2 /\
    Document_GetEntity d nm = None /\
    Document_GetEntity (setStandalone 0 d) nm = None.
Proof.
  intros Hget.
  destruct (GetEntity_cases st nm)
    as [(r & _ & _ & Hpre)|[(msg & Hpanic)|(dp & d & Hdoc & Hd & Hpre)]].
  - rewrite Hpre in Hget. discriminate Hget.
  - rewrite Hpanic in Hget. discriminate Hget.
  - rewrite (GetEntity_paths st dp d nm Hdoc Hd Hpre) in Hget.
    destruct (Z.eqb_spec (standalone d) 1) as [Hsa|Hsa]; simpl in Hget;
      [|discriminate Hget].
    destruct (Z.eqb_spec (inSubset (ctx st)) 2) as [Hext|Hext]; [discriminate Hget|].
    destruct (Document_GetEntity d nm) eqn:Hfirst; [discriminate Hget|].
    destruct (Document_GetEntity (setStandalone 0 d) nm) eqn:Hretry;
      [discriminate Hget|].
    injection Hget as _ <- <-.
    split; [reflexivity|]. split; [reflexivity|].
    exists dp, d. repeat split; assumption.
Qed.

Lemma GetEntity_fails_only_on_standalone_miss_witness :
  exists dp d,
    ctx_doc (ctx standaloneWorld) = Some dp /\
    mem standaloneWorld !! dp = Some (ODocument d) /\
    standalone d = 1 /\ inSubset (ctx standaloneWorld) <> 2 /\
    Document_GetEntity d "copy" = None /\
    Document_GetEntity (setStandalone 0 d) "copy" = None.
Proof.
  assert (exists st', TreeBuilder.GetEntity standaloneWorld "copy"
                      = Done (st', (None, Some (TreeBuilder.standaloneError "copy"))))
    as [st' Hget].
  { eexists. vm_compute. reflexivity. }
  exact (proj2 (proj2 (GetEntity_fails_only_on_standalone_miss
                         standaloneWorld st' "copy" None _ Hget))).
Defined.

(** X12. Lookups that cannot fail. On a document that is not marked standalone
    the name is looked up once, hit or miss, and a miss returns [nil] with
    no error; while the external subset is being built on a standalone
    document, the name is looked up with the flag cleared, so that the
    entities of the external subset are visible. In both cases the state is
    unchanged. *)
Theorem GetEntity_direct_lookups (st : world) (dp : ptr) (d : Document) (nm : string) :
  ctx_doc (ctx st) = Some dp ->
  mem st !! dp = Some (ODocument d) ->
  (inSubset (ctx st) = 0 -> resolvePredefinedEntity nm = None) ->
  (standalone d <> 1 ->
   TreeBuilder.GetEntity st nm = Done (st, (Document_GetEntity d nm, None))) /\
  (standalone d = 1 -> inSubset (ctx st) = 2 ->
   TreeBuilder.GetEntity st nm
   = Done (st, (Document_GetEntity (setStandalone 0 d) nm, None))).
Proof.
  intros Hdoc Hd Hpre.
  rewrite (GetEntity_paths st dp d nm Hdoc Hd Hpre). split.
  - intros Hsa. destruct (Z.eqb_spec (standalone d) 1); [contradiction|reflexivity].
  - intros Hsa Hext. rewrite Hsa, Hext. reflexivity.
Qed.

Lemma GetEntity_direct_lookups_witness :
  TreeBuilder.GetEntity plainWorld "copy" = Done (plainWorld, (Some extEntity, None)) /\
  TreeBuilder.GetEntity plainWorld "nbsp" = Done (plainWorld, (None, None)) /\
  TreeBuilder.GetEntity extSubsetWorld "copy"
  = Done (extSubsetWorld, (Some extEntity, None)).
Proof.
  split; [|split].
  - apply (proj1 (GetEntity_direct_lookups plainWorld 0%nat plainDoc "copy"
                    eq_refl eq_refl (fun _ => eq_refl))).
    vm_compute. intros Heq. discriminate Heq.
  - apply (proj1 (GetEntity_direct_lookups plainWorld 0%nat plainDoc "nbsp"
                    eq_refl eq_refl (fun _ => eq_refl))).
    vm_compute. intros Heq. discriminate Heq.
  - apply (proj2 (GetEntity_direct_lookups extSubsetWorld 0%nat extOnlyDoc "copy"
                    eq_refl eq_refl (fun _ => eq_refl))); reflexivity.
Defined.

(** ** The shape of what [DecodeRune] returns *)

Ltac zbool :=
  repeat match goal with
         | H : (_ <? _) = true |- _ => apply Z.ltb_lt in H
         | H : (_ <? _) = false |- _ => apply Z.ltb_ge in H
         | H : (_ =? _) = true |- _ => apply Z.eqb_eq in H
         | H : (_ =? _) = false |- _ => apply Z.eqb_neq in H
         | H : (_ <=? _) = true |- _ => apply Z.leb_le in H
         | H : (_ <=? _) = false |- _ => apply Z.leb_gt in H
         | H : (_ || _) = false |- _ => apply orb_false_elim in H; destruct H
         end.

(** A decoded value comes from one byte, which is then an ASCII byte unless
    the value is [RuneError], or from two to four bytes, none of which is
    an ASCII byte. *)
Lemma DecodeRune_shape (p0 : Z) (p' : list Z) (r : Z) (w : nat) :
  utf8.DecodeRune (p0 :: p') = (r, w) ->
  (w = 1%nat /\ (r = utf8.RuneError \/ (r = p0 /\ p0 < 0x80))) \/
  ((2 <= w)%nat /\ Forall (fun b => 0x80 <= b) (take w (p0 :: p'))).
Proof.
  unfold utf8.DecodeRune, utf8.first.
  repeat case_match; intros Heq; injection Heq as <- <-;
    try (left; split; [reflexivity|left; reflexivity]);
    zbool;
    try match goal with
        | H : Z.testbit _ _ = _ |- _ => vm_compute in H; discriminate H
        end;
    try match goal with
        | H : utf8.acceptRanges _ = _ |- _ => vm_compute in H; injection H as <- <-
        end;
    unfold utf8.as_, utf8.xx, utf8.s1, utf8.s2, utf8.s3, utf8.s4, utf8.s5, utf8.s6,
      utf8.s7, utf8.locb, utf8.hicb in *;
    simpl in *; unfold utf8.locb, utf8.hicb in *; try congruence; try lia.
  all: try (left; split; [reflexivity|right; split; [reflexivity|lia]]).
  all: right; (split; [lia|]); simpl; repeat constructor; lia.
Qed.

Lemma DecodeRune_nonneg (p0 : Z) (p' : list Z) :
  0 <= p0 -> 0 <= fst (utf8.DecodeRune (p0 :: p')).
Proof.
  intros Hp0. unfold utf8.DecodeRune.
  repeat case_match; simpl; try (unfold utf8.RuneError; lia); try assumption.
  all: repeat (apply Z.lor_nonneg; split);
    try (apply Z.shiftl_nonneg); apply Z.land_nonneg; right;
      unfold utf8.mask2, utf8.mask3, utf8.mask4, utf8.maskx; lia.
Qed.

(** ** Escaped output holds no raw markup *)

Lemma hexDigit_range (d : Z) :
  0 <= d < 16 -> 48 <= hexDigit d <= 57 \/ 65 <= hexDigit d <= 70.
Proof. intros Hd. unfold hexDigit. destruct (Z.ltb_spec d 10); lia. Qed.

Lemma hexDigits_range (fuel : nat) :
  forall r, 0 <= r ->
            Forall (fun b => 48 <= b <= 57 \/ 65 <= b <= 70) (hexDigits fuel r).
Proof.
  induction fuel as [|fuel IH]; intros r Hr; simpl.
  - apply Forall_singleton. apply hexDigit_range. Z.div_mod_to_equations. lia.
  - destruct (Z.ltb_spec r 16).
    + apply Forall_singleton. apply hexDigit_range. lia.
    + apply Forall_app. split.
      * apply IH. Z.div_mod_to_equations. lia.
      * apply Forall_singleton. apply hexDigit_range. Z.div_mod_to_equations. lia.
Qed.

(** No replacement written by either function holds a byte of markup. *)
Lemma hexCharRef_clean (r : Z) :
  0 <= r -> Forall (fun b => isAttrMarkup b = false) (hexCharRef r).
Proof.
  intros Hr. unfold hexCharRef.
  apply Forall_app. split; [repeat constructor|].
  apply Forall_app. split; [|repeat constructor].
  eapply Forall_impl; [apply hexDigits_range; exact Hr|].
  intros b Hb. simpl in Hb. unfold isAttrMarkup.
  repeat match goal with
         | |- context [b =? ?k] => destruct (Z.eqb_spec b k); [lia|]
         end.
  reflexivity.
Qed.

Lemma isTextMarkup_weaker (b : Z) : isAttrMarkup b = false -> isTextMarkup b = false.
Proof.
  unfold isAttrMarkup, isTextMarkup.
  repeat match goal with
         | |- context [b =? ?k] => destruct (Z.eqb_spec b k)
         end; simpl; congruence.
Qed.

Lemma high_byte_clean (b : Z) : 0x80 <= b -> isAttrMarkup b = false.
Proof.
  intros Hb. unfold isAttrMarkup.
  repeat match goal with
         | |- context [b =? ?k] => destruct (Z.eqb_spec b k); [lia|]
         end.
  reflexivity.
Qed.

Lemma attrSwitch_clean (r : Z) (w : nat) :
  0 <= r ->
  match attrSwitch r w with
  | Some esc => Forall (fun b => isAttrMarkup b = false) esc
  | None => isAttrMarkup r = false
  end.
Proof.
  intros Hr. unfold attrSwitch.
  repeat match goal with
         | |- context [r =? ?k] =>
           lazymatch k with
           | 0xFFFD => fail
           | _ => destruct (Z.eqb_spec r k) as [->|?]; [repeat constructor|]
           end
         end.
  destruct (negb _ && _); [apply hexCharRef_clean; exact Hr|].
  destruct (negb _ || _); [repeat constructor|].
  unfold isAttrMarkup.
  repeat match goal with
         | |- context [r =? ?k] => destruct (Z.eqb_spec r k); [lia|]
         end.
  reflexivity.
Qed.

Lemma textSwitch_clean (escapeNewline : bool) (r : Z) (w : nat) :
  0 <= r ->
  match textSwitch escapeNewline r w with
  | Some esc => Forall (fun b => isTextMarkup b = false) esc
  | None => isTextMarkup r = false
  end.
Proof.
  intros Hr. unfold textSwitch.
  repeat match goal with
         | |- context [r =? ?k] =>
           lazymatch k with
           | 0xFFFD => fail
           | 9 => fail
           | _ => destruct (Z.eqb_spec r k) as [->|?];
                  [try destruct escapeNewline; repeat constructor|]
           end
         end.
  destruct (negb _ && _).
  { eapply Forall_impl; [apply hexCharRef_clean; exact Hr|].
    intros b. apply isTextMarkup_weaker. }
  destruct (negb _ || _); [repeat constructor|].
  unfold isTextMarkup.
  repeat match goal with
         | |- context [r =? ?k] => destruct (Z.eqb_spec r k); [lia|]
         end.
  reflexivity.
Qed.

(** The escaping of bytes through a switch whose replacements are clean and
    which replaces every unclean ASCII byte is clean. *)
Lemma escapeRunes_clean (sw : Z -> nat -> option (list Z)) (bad : Z -> bool) :
  (forall b, 0x80 <= b -> bad b = false) ->
  (forall r w, 0 <= r ->
               match sw r w with
               | Some esc => Forall (fun b => bad b = false) esc
               | None => bad r = false
               end) ->
  sw utf8.RuneError 1%nat <> None ->
  forall (fuel : nat) (p : list Z),
    Forall (fun b => 0 <= b < 256) p ->
    Forall (fun b => bad b = false) (escapeRunes sw fuel p).
Proof.
  intros Hhigh Hsw Herr fuel. induction fuel as [|fuel IH]; intros p Hp; simpl.
  - constructor.
  - destruct p as [|p0 p']; [constructor|].
    assert (0 <= p0) as Hp0 by (inversion Hp; lia).
    pose proof (DecodeRune_nonneg p0 p' Hp0) as Hnn.
    pose proof (DecodeRune_shape p0 p') as Hshape.
    destruct (utf8.DecodeRune (p0 :: p')) as [r w]. simpl in Hnn.
    specialize (Hshape r w eq_refl). specialize (Hsw r w Hnn).
    apply Forall_app. split.
    + destruct (sw r w) as [esc|] eqn:Hsome; [exact Hsw|].
      destruct Hshape as [[-> [->|[-> _]]]|[_ Hbytes]].
      * exfalso. exact (Herr Hsome).
      * simpl. rewrite take_0. repeat constructor. exact Hsw.
      * eapply Forall_impl; [exact Hbytes|]. exact Hhigh.
    + apply IH. apply Forall_drop. exact Hp.
Qed.

(** X3. Escaped output holds no raw markup. For any input bytes, what
    [escapeAttrValue] writes holds no tab, line feed, carriage return,
    quote, apostrophe, [<] or [>], so that it can stand between double
    quotes; what [escapeText] writes holds no carriage return, quote,
    apostrophe, [<] or [>]. *)
Theorem escaped_output_has_no_markup (out : Buffer) (s : list Z)
        (escapeNewline : bool) :
  Forall (fun b => 0 <= b < 256) s ->
  (exists o, escapeAttrValue out s = Done (out ++ o, None) /\
             Forall (fun b => isAttrMarkup b = false) o) /\
  (exists o, escapeText out s escapeNewline = Done (out ++ o, None) /\
             Forall (fun b => isTextMarkup b = false) o).
Proof.
  intros Hs.
  destruct (escape_Buffer out s escapeNewline) as [Hattr Htext].
  split; eexists; (split; [eassumption|]).
  - apply (escapeRunes_clean attrSwitch isAttrMarkup); try assumption.
    + apply high_byte_clean.
    + apply attrSwitch_clean.
    + vm_compute. discriminate.
  - apply (escapeRunes_clean (textSwitch escapeNewline) isTextMarkup); try assumption.
    + intros b Hb. apply isTextMarkup_weaker, high_byte_clean. exact Hb.
    + apply textSwitch_clean.
    + vm_compute. discriminate.
Qed.

Lemma escaped_output_has_no_markup_witness :
  exists o, escapeAttrValue ([] : Buffer) (bytes "a<b>" ++ [9; 0xFF; 0xC3; 0x9F])
            = Done ([] ++ o, None) /\
            Forall (fun b => isAttrMarkup b = false) o.
Proof.
  apply (proj1 (escaped_output_has_no_markup
                  [] (bytes "a<b>" ++ [9; 0xFF; 0xC3; 0x9F]) false
                  ltac:(repeat constructor; lia))).
Defined.

(** ** Escaping leaves plain text alone *)

Lemma switches_keep_plain (b : Z) (escapeNewline : bool) :
  isPlain b = true ->
  attrSwitch b 1 = None /\ textSwitch escapeNewline b 1 = None.
Proof.
  unfold isPlain, attrSwitch, textSwitch, isInCharacterRange, utf8.RuneError.
  intros Hb.
  repeat match goal with
         | H : (_ && _) = true |- _ => apply andb_prop in H; destruct H
         | H : negb _ = true |- _ => apply negb_true_iff in H
         end.
  zbool.
  repeat match goal with
         | |- context [?x =? ?k] => destruct (Z.eqb_spec x k); [lia|]
         | |- context [?x <? ?k] => destruct (Z.ltb_spec x k); try lia
         | |- context [?x <=? ?k] => destruct (Z.leb_spec x k); try lia
         end.
  split; reflexivity.
Qed.

Lemma escapeRunes_cons (sw : Z -> nat -> option (list Z)) (fuel : nat)
      (b : Z) (p : list Z) :
  escapeRunes sw (S fuel) (b :: p)
  = match sw (fst (utf8.DecodeRune (b :: p))) (snd (utf8.DecodeRune (b :: p))) with
    | Some esc => esc
    | None => take (snd (utf8.DecodeRune (b :: p))) (b :: p)
    end ++ escapeRunes sw fuel (drop (snd (utf8.DecodeRune (b :: p))) (b :: p)).
Proof.
  cbn [escapeRunes]. destruct (utf8.DecodeRune (b :: p)). reflexivity.
Qed.

Lemma escapeRunes_plain (sw : Z -> nat -> option (list Z)) :
  (forall b, isPlain b = true -> sw b 1%nat = None) ->
  forall (s : list Z) (fuel : nat),
    Forall (fun b => isPlain b = true) s ->
    (length s <= fuel)%nat ->
    escapeRunes sw fuel s = s.
Proof.
  intros Hsw s. induction s as [|b s IH]; intros fuel Hs Hfuel.
  - destruct fuel; reflexivity.
  - destruct fuel as [|fuel]; [simpl in Hfuel; lia|].
    inversion Hs as [|? ? Hb Hs']; subst.
    rewrite escapeRunes_cons, DecodeRune_one.
    + cbn [fst snd]. rewrite (Hsw b Hb). simpl. rewrite ?take_0, ?drop_0.
      rewrite IH by (assumption || (simpl in Hfuel; lia)). reflexivity.
    + unfold isPlain in Hb.
      apply andb_prop in Hb. destruct Hb as [Hb _].
      apply andb_prop in Hb. destruct Hb as [_ Hb]. zbool. exact Hb.
Qed.

(** X2. Escaping leaves plain text alone. Input made of printable ASCII bytes
    other than the quote, the ampersand, the apostrophe, [<] and [>] is
    written unchanged by both functions. *)
Theorem escaping_keeps_plain_text (out : Buffer) (s : list Z) (escapeNewline : bool) :
  Forall (fun b => isPlain b = true) s ->
  escapeAttrValue out s = Done (out ++ s, None) /\
  escapeText out s escapeNewline = Done (out ++ s, None).
Proof.
  intros Hs.
  destruct (escape_Buffer out s escapeNewline) as [-> ->].
  rewrite !escapeRunes_plain; try assumption; try lia.
  - split; reflexivity.
  - intros b Hb. apply (switches_keep_plain b escapeNewline Hb).
  - intros b Hb. apply (switches_keep_plain b escapeNewline Hb).
Qed.

Lemma escaping_keeps_plain_text_witness :
  escapeAttrValue ([] : Buffer) (bytes "plain text; no markup") 
  = Done (bytes "plain text; no markup", None).
Proof.
  apply (proj1 (escaping_keeps_plain_text [] (bytes "plain text; no markup") false
                  ltac:(repeat constructor))).
Defined.

(** ** Escaping, value by value *)

(** X1. The escaping loop, on any input. With its slices [s[last:i-width]] and
    [s[last:]], the loop of either function writes to a buffer the
    concatenation, value by value in the order of the input, of the
    replacement chosen by the switch or else of the very bytes the value
    was decoded from, undecodable bytes counting as one value each;
    nothing of the input is dropped or written twice, and no error is
    returned. *)
Theorem escaping_is_value_by_value (out : Buffer) (s : list Z) (escapeNewline : bool) :
  escapeAttrValue out s = Done (out ++ escapeRunes attrSwitch (length s) s, None) /\
  escapeText out s escapeNewline
  = Done (out ++ escapeRunes (textSwitch escapeNewline) (length s) s, None).
Proof. apply escape_Buffer. Qed.

(** ** The values [DecodeRune] returns *)

(** The bit operations of the multi-byte cases, as arithmetic. *)
Lemma decode2_value (p0 b1 : Z) :
  Z.lor (Z.shiftl (Z.land p0 utf8.mask2) 6) (Z.land b1 utf8.maskx)
  = (p0 mod 32) * 64 + b1 mod 64.
Proof.
  rewrite land_mask2, land_maskx.
  rewrite (shiftl_mul _ 64 6) by (reflexivity || lia).
  apply (lor_mul_add _ _ 64 6); [lia|reflexivity|].
  apply Z.mod_pos_bound. lia.
Qed.

Lemma decode3_value (p0 b1 b2 : Z) :
  Z.lor (Z.lor (Z.shiftl (Z.land p0 utf8.mask3) 12) (Z.shiftl (Z.land b1 utf8.maskx) 6))
        (Z.land b2 utf8.maskx)
  = (p0 mod 16) * 4096 + (b1 mod 64) * 64 + b2 mod 64.
Proof.
  rewrite land_mask3, !land_maskx.
  rewrite (shiftl_mul _ 4096 12), (shiftl_mul _ 64 6) by (reflexivity || lia).
  pose proof (Z.mod_pos_bound b1 64 ltac:(lia)).
  pose proof (Z.mod_pos_bound b2 64 ltac:(lia)).
  rewrite (lor_mul_add _ (b1 mod 64 * 64) 4096 12) by (reflexivity || lia).
  replace (p0 mod 16 * 4096 + b1 mod 64 * 64)
    with ((p0 mod 16 * 64 + b1 mod 64) * 64) by lia.
  rewrite (lor_mul_add _ (b2 mod 64) 64 6) by (reflexivity || lia). reflexivity.
Qed.

Lemma decode4_value (p0 b1 b2 b3 : Z) :
  Z.lor (Z.lor (Z.lor (Z.shiftl (Z.land p0 utf8.mask4) 18)
                      (Z.shiftl (Z.land b1 utf8.maskx) 12))
               (Z.shiftl (Z.land b2 utf8.maskx) 6))
        (Z.land b3 utf8.maskx)
  = (p0 mod 8) * 262144 + (b1 mod 64) * 4096 + (b2 mod 64) * 64 + b3 mod 64.
Proof.
  rewrite land_mask4, !land_maskx.
  rewrite (shiftl_mul _ 262144 18), (shiftl_mul _ 4096 12), (shiftl_mul _ 64 6)
    by (reflexivity || lia).
  pose proof (Z.mod_pos_bound b1 64 ltac:(lia)).
  pose proof (Z.mod_pos_bound b2 64 ltac:(lia)).
  pose proof (Z.mod_pos_bound b3 64 ltac:(lia)).
  rewrite (lor_mul_add _ (b1 mod 64 * 4096) 262144 18) by (reflexivity || lia).
  replace (p0 mod 8 * 262144 + b1 mod 64 * 4096)
    with ((p0 mod 8 * 64 + b1 mod 64) * 4096) by lia.
  rewrite (lor_mul_add _ (b2 mod 64 * 64) 4096 12) by (reflexivity || lia).
  replace ((p0 mod 8 * 64 + b1 mod 64) * 4096 + b2 mod 64 * 64)
    with (((p0 mod 8 * 64 + b1 mod 64) * 64 + b2 mod 64) * 64) by lia.
  rewrite (lor_mul_add _ (b3 mod 64) 64 6) by (reflexivity || lia). lia.
Qed.

(** [DecodeRune] never returns a surrogate code point: overlong forms,
    surrogates and values above [MaxRune] are decoding errors. *)
Lemma DecodeRune_not_surrogate (p : list Z) :
  ~ (0xD800 <= fst (utf8.DecodeRune p) <= 0xDFFF).
Proof.
  destruct p as [|p0 p']; [simpl; unfold utf8.RuneError; lia|].
  unfold utf8.DecodeRune, utf8.first.
  repeat case_match; cbn [fst];
    rewrite ?decode2_value, ?decode3_value, ?decode4_value;
    try (unfold utf8.RuneError; lia);
    zbool;
    try match goal with
        | H : utf8.acceptRanges _ = _ |- _ => vm_compute in H; injection H as <- <-
        end;
    unfold utf8.as_, utf8.xx, utf8.s1, utf8.s2, utf8.s3, utf8.s4, utf8.s5, utf8.s6,
      utf8.s7, utf8.locb, utf8.hicb in *;
    simpl in *; unfold utf8.locb, utf8.hicb in *; try lia.
  all: subst; Z.div_mod_to_equations; lia.
Qed.

(** ** The character range *)

(** X6. [isInCharacterRange] against the [Char] production it cites. The two
    differ exactly on [0xD800 .. 0xDF77], surrogate code points that the
    function accepts because its bound reads [0xDF77] where the production
    has [0xD7FF]; they agree on every Unicode scalar value and on every
    value that [DecodeRune] can return, so that the escaping functions,
    which test decoded values only, never see the difference. *)
Theorem isInCharacterRange_vs_Char (r : Z) (p : list Z) :
  (isInCharacterRange r <> xmlChar r <-> 0xD800 <= r <= 0xDF77) /\
  (utf8.scalar r -> isInCharacterRange r = xmlChar r) /\
  isInCharacterRange (fst (utf8.DecodeRune p)) = xmlChar (fst (utf8.DecodeRune p)).
Proof.
  assert (forall v, isInCharacterRange v <> xmlChar v <-> 0xD800 <= v <= 0xDF77)
    as Hdiff.
  { intros v. unfold isInCharacterRange, xmlChar.
    repeat match goal with
           | |- context [?x =? ?k] => destruct (Z.eqb_spec x k)
           | |- context [?x <=? ?k] => destruct (Z.leb_spec x k)
           end; simpl; split; intros; try lia; try congruence. }
  assert (forall v, ~ (0xD800 <= v <= 0xDFFF) -> isInCharacterRange v = xmlChar v)
    as Hsame.
  { intros v Hv.
    destruct (bool_decide (isInCharacterRange v = xmlChar v)) eqn:Hdec.
    - apply bool_decide_eq_true_1 in Hdec. exact Hdec.
    - apply bool_decide_eq_false_1 in Hdec. apply Hdiff in Hdec. lia. }
  split; [apply Hdiff|]. split.
  - unfold utf8.scalar, utf8.surrogateMin, utf8.surrogateMax. intros Hr.
    apply Hsame. lia.
  - apply Hsame. apply DecodeRune_not_surrogate.
Qed.

Lemma isInCharacterRange_vs_Char_witness :
  isInCharacterRange 0xD800 <> xmlChar 0xD800 /\
  isInCharacterRange 0x20AC = xmlChar 0x20AC.
Proof.
  destruct (isInCharacterRange_vs_Char 0xD800 []) as [Hdiff _].
  destruct (isInCharacterRange_vs_Char 0x20AC []) as (_ & Hscalar & _).
  split.
  - apply Hdiff. lia.
  - apply Hscalar. unfold utf8.scalar, utf8.surrogateMin. lia.
Defined.

(** ** The three variants of escaping *)

(** A value decoded from more than one byte is not an ASCII value. *)
Lemma DecodeRune_multibyte_value (p0 : Z) (p' : list Z) (r : Z) (w : nat) :
  utf8.DecodeRune (p0 :: p') = (r, w) -> (2 <= w)%nat -> 0x80 <= r.
Proof.
  unfold utf8.DecodeRune, utf8.first.
  repeat case_match; intros Heq Hw; injection Heq as <- <-;
    rewrite ?decode2_value, ?decode3_value, ?decode4_value;
    try lia;
    zbool;
    try match goal with
        | H : utf8.acceptRanges _ = _ |- _ => vm_compute in H; injection H as <- <-
        end;
    unfold utf8.as_, utf8.xx, utf8.s1, utf8.s2, utf8.s3, utf8.s4, utf8.s5, utf8.s6,
      utf8.s7, utf8.locb, utf8.hicb in *;
    simpl in *; unfold utf8.locb, utf8.hicb in *; try lia.
  all: subst; Z.div_mod_to_equations; lia.
Qed.

(** An ASCII value is decoded from the byte of that value only. *)
Lemma DecodeRune_ascii (p0 : Z) (p' : list Z) (r : Z) (w : nat) :
  utf8.DecodeRune (p0 :: p') = (r, w) -> r < 0x80 -> r = p0 /\ w = 1%nat.
Proof.
  intros Hdec Hr.
  destruct (DecodeRune_shape p0 p' r w Hdec) as [[-> [->|[-> _]]]|[Hw _]].
  - unfold utf8.RuneError in Hr. lia.
  - split; reflexivity.
  - pose proof (DecodeRune_multibyte_value p0 p' r w Hdec Hw). lia.
Qed.

Lemma escapeRunes_agree (sw1 sw2 : Z -> nat -> option (list Z)) (k : Z) :
  k < 0x80 ->
  (forall r w, r <> k -> sw1 r w = sw2 r w) ->
  forall (fuel : nat) (p : list Z),
    Forall (fun b => b <> k) p ->
    escapeRunes sw1 fuel p = escapeRunes sw2 fuel p.
Proof.
  intros Hk Hsw fuel. induction fuel as [|fuel IH]; intros p Hp; [reflexivity|].
  destruct p as [|p0 p']; [reflexivity|].
  rewrite !escapeRunes_cons.
  destruct (utf8.DecodeRune (p0 :: p')) as [r w] eqn:Hdec. cbn [fst snd].
  assert (r <> k) as Hrk.
  { intros ->. destruct (DecodeRune_ascii p0 p' k w Hdec Hk) as [-> _].
    inversion Hp; congruence. }
  rewrite (Hsw r w Hrk), (IH (drop w (p0 :: p'))) by (apply Forall_drop; exact Hp).
  reflexivity.
Qed.

Lemma switches_differ_on_tab_and_newline (r : Z) (w : nat) :
  (r <> 9 -> attrSwitch r w = textSwitch true r w) /\
  (r <> 10 -> textSwitch true r w = textSwitch false r w).
Proof.
  unfold attrSwitch, textSwitch. split; intros Hr.
  - destruct (Z.eqb_spec r 9); [contradiction|].
    repeat match goal with
           | |- context [r =? ?k] =>
             lazymatch k with
             | 0xFFFD => fail
             | _ => destruct (Z.eqb_spec r k) as [->|?]; [reflexivity|]
             end
           end.
    reflexivity.
  - destruct (Z.eqb_spec r 10); [contradiction|]. reflexivity.
Qed.

(** X5. The three variants of escaping differ on tabs and line feeds only. On
    input without a tab byte [escapeAttrValue] writes what [escapeText]
    with newline escaping writes; on input without a line feed byte
    [escapeText] writes the same with and without newline escaping. *)
Theorem escaping_variants_agree (out : Buffer) (s : list Z) :
  (Forall (fun b => b <> 9) s -> escapeAttrValue out s = escapeText out s true) /\
  (Forall (fun b => b <> 10) s -> escapeText out s true = escapeText out s false).
Proof.
  rewrite (proj1 (escape_Buffer out s true)).
  rewrite (proj2 (escape_Buffer out s true)), (proj2 (escape_Buffer out s false)).
  split; intros Hs.
  - rewrite (escapeRunes_agree attrSwitch (textSwitch true) 9); try assumption; try lia.
    + reflexivity.
    + intros r w. apply switches_differ_on_tab_and_newline.
  - rewrite (escapeRunes_agree (textSwitch true) (textSwitch false) 10);
      try assumption; try lia.
    + reflexivity.
    + intros r w. apply switches_differ_on_tab_and_newline.
Qed.

Lemma escaping_variants_agree_witness :
  escapeAttrValue ([] : Buffer) (bytes "a<b" ++ [10; 0xC3; 0x9F])
  = escapeText [] (bytes "a<b" ++ [10; 0xC3; 0x9F]) true.
Proof.
  apply (proj1 (escaping_variants_agree [] (bytes "a<b" ++ [10; 0xC3; 0x9F]))).
  vm_compute. repeat (constructor; [discriminate|]). constructor.
Defined.

(** ** Escaped output is valid UTF-8 *)

Lemma first_values (b : Z) :
  In (utf8.first b)
     [utf8.as_; utf8.xx; utf8.s1; utf8.s2; utf8.s3; utf8.s4; utf8.s5; utf8.s6; utf8.s7].
Proof. unfold utf8.first. repeat case_match; simpl; tauto. Qed.

(** A value decoded without error from several bytes is decoded from those
    bytes alone: what follows them does not matter. *)
Lemma DecodeRune_prefix (p : list Z) (r : Z) (w : nat) :
  utf8.DecodeRune p = (r, w) -> (2 <= w)%nat ->
  forall tl, utf8.DecodeRune (take w p ++ tl) = (r, w).
Proof.
  intros Hdec Hw tl.
  destruct p as [|p0 p']; [simpl in Hdec; injection Hdec as <- <-; lia|].
  pose proof (first_values p0) as Hx. simpl in Hx.
  unfold utf8.DecodeRune in Hdec.
  repeat destruct Hx as [Hx|Hx]; try contradiction; rewrite <- Hx in Hdec;
    unfold utf8.as_, utf8.xx, utf8.s1, utf8.s2, utf8.s3, utf8.s4, utf8.s5, utf8.s6,
      utf8.s7, utf8.acceptRanges, utf8.locb, utf8.hicb in Hdec;
    simpl in Hdec;
    repeat case_match; try (injection Hdec as <- <-; lia); zbool;
    injection Hdec as <- <-; simpl take; simpl app.
  - apply DecodeRune_two; [symmetry; exact Hx|unfold utf8.locb, utf8.hicb in *; lia].
  - eapply DecodeRune_three;
      [symmetry; exact Hx|left; repeat split|..];
      unfold utf8.locb, utf8.hicb in *; lia.
  - eapply DecodeRune_three;
      [symmetry; exact Hx|right; left; repeat split|..];
      unfold utf8.locb, utf8.hicb in *; lia.
  - eapply DecodeRune_three;
      [symmetry; exact Hx|right; right; repeat split|..];
      unfold utf8.locb, utf8.hicb in *; lia.
  - eapply DecodeRune_four;
      [symmetry; exact Hx|left; repeat split|..];
      unfold utf8.locb, utf8.hicb in *; lia.
  - eapply DecodeRune_four;
      [symmetry; exact Hx|right; left; repeat split|..];
      unfold utf8.locb, utf8.hicb in *; lia.
  - eapply DecodeRune_four;
      [symmetry; exact Hx|right; right; repeat split|..];
      unfold utf8.locb, utf8.hicb in *; lia.
Qed.

Lemma oneRune_ascii (b : Z) : b < 0x80 -> oneRune [b].
Proof.
  intros Hb. split; [discriminate|]. exists b. split.
  - intros tl. simpl. apply DecodeRune_one. exact Hb.
  - unfold utf8.RuneError. lia.
Qed.

Lemma oneRune_fffd : oneRune esc_fffd.
Proof.
  split; [discriminate|]. exists utf8.RuneError. split.
  - intros tl. reflexivity.
  - simpl. lia.
Qed.

(** The bytes a value was decoded from, when that was not an error. *)
Lemma oneRune_decoded (p : list Z) (r : Z) (w : nat) :
  p <> [] ->
  utf8.DecodeRune p = (r, w) ->
  ~ (r = utf8.RuneError /\ w = 1%nat) ->
  oneRune (take w p).
Proof.
  intros Hp Hdec Herr.
  destruct p as [|p0 p']; [congruence|].
  pose proof (DecodeRune_width_le (p0 :: p')) as Hle. rewrite Hdec in Hle.
  simpl in Hle.
  assert (length (take w (p0 :: p')) = w) as Hlen
      by (rewrite length_take; simpl; lia).
  destruct (DecodeRune_shape p0 p' r w Hdec) as [[-> [->|[-> Hp0]]]|[Hw _]].
  - exfalso. apply Herr. split; reflexivity.
  - simpl. rewrite take_0. apply oneRune_ascii. exact Hp0.
  - split.
    + intros Hnil. rewrite Hnil in Hlen. simpl in Hlen. lia.
    + exists r. rewrite Hlen. split.
      * apply DecodeRune_prefix; assumption.
      * lia.
Qed.

Lemma runes_nil : runes [].
Proof. exists []. split; [reflexivity|constructor]. Qed.

Lemma runes_one (p : list Z) : oneRune p -> runes p.
Proof.
  intros Hp. exists [p]. split.
  - simpl. rewrite app_nil_r. reflexivity.
  - apply Forall_singleton. exact Hp.
Qed.

Lemma runes_app (l1 l2 : list Z) : runes l1 -> runes l2 -> runes (l1 ++ l2).
Proof.
  intros (ps1 & -> & H1) (ps2 & -> & H2). exists (ps1 ++ ps2). split.
  - rewrite concat_app. reflexivity.
  - apply Forall_app. split; assumption.
Qed.

Lemma runes_ascii (l : list Z) : Forall (fun b => b < 0x80) l -> runes l.
Proof.
  induction 1 as [|b l Hb _ IH]; [apply runes_nil|].
  change (b :: l) with ([b] ++ l).
  apply runes_app; [apply runes_one, oneRune_ascii; exact Hb|exact IH].
Qed.

Lemma validRunes_cons (fuel : nat) (b : Z) (p : list Z) :
  validRunes (S fuel) (b :: p)
  = if (fst (utf8.DecodeRune (b :: p)) =? utf8.RuneError)
       && (snd (utf8.DecodeRune (b :: p)) =? 1)%nat
    then false
    else validRunes fuel (drop (snd (utf8.DecodeRune (b :: p))) (b :: p)).
Proof. cbn [validRunes]. destruct (utf8.DecodeRune (b :: p)). reflexivity. Qed.

(** A sequence of encoded values is valid UTF-8. *)
Lemma runes_valid (l : list Z) : runes l -> validUTF8 l = true.
Proof.
  intros (ps & -> & Hps). unfold validUTF8.
  generalize (Nat.le_refl (length (concat ps))).
  generalize (length (concat ps)) at 2 3 as fuel. intros fuel. revert fuel.
  induction Hps as [|p ps [Hne (r & Hdec & Herr)] _ IH]; intros fuel Hfuel.
  - destruct fuel; reflexivity.
  - simpl concat in *. rewrite length_app in Hfuel.
    destruct p as [|b p]; [congruence|].
    destruct fuel as [|fuel]; [simpl in Hfuel; lia|].
    change ((b :: p) ++ concat ps) with (b :: (p ++ concat ps)).
    rewrite validRunes_cons.
    change (b :: (p ++ concat ps)) with ((b :: p) ++ concat ps).
    rewrite Hdec. cbn [fst snd].
    rewrite drop_app_length.
    destruct ((r =? utf8.RuneError) && (length (b :: p) =? 1)%nat) eqn:Hbad.
    + exfalso. apply Herr. apply andb_prop in Hbad. destruct Hbad as [H1 H2].
      split; [apply Z.eqb_eq; exact H1|apply Nat.eqb_eq; exact H2].
    + apply IH. simpl in Hfuel. lia.
Qed.

Lemma hexCharRef_ascii (r : Z) : 0 <= r -> Forall (fun b => b < 0x80) (hexCharRef r).
Proof.
  intros Hr. unfold hexCharRef.
  apply Forall_app. split; [repeat constructor|].
  apply Forall_app. split; [|repeat constructor].
  eapply Forall_impl; [apply hexDigits_range; exact Hr|].
  intros b Hb. simpl in Hb. lia.
Qed.

Lemma attrSwitch_runes (r : Z) (w : nat) (esc : list Z) :
  0 <= r -> attrSwitch r w = Some esc -> runes esc.
Proof.
  intros Hr. unfold attrSwitch.
  repeat match goal with
         | |- context [r =? ?k] =>
           lazymatch k with
           | 0xFFFD => fail
           | _ => destruct (Z.eqb_spec r k) as [->|?];
                  [intros Heq; injection Heq as <-; apply runes_ascii;
                   repeat constructor|]
           end
         end.
  destruct (negb _ && _).
  { intros Heq. injection Heq as <-. apply runes_ascii, hexCharRef_ascii. exact Hr. }
  destruct (negb _ || _); [|discriminate].
  intros Heq. injection Heq as <-. apply runes_one, oneRune_fffd.
Qed.

Lemma textSwitch_runes (escapeNewline : bool) (r : Z) (w : nat) (esc : list Z) :
  0 <= r -> textSwitch escapeNewline r w = Some esc -> runes esc.
Proof.
  intros Hr. unfold textSwitch.
  repeat match goal with
         | |- context [r =? ?k] =>
           lazymatch k with
           | 0xFFFD => fail
           | 9 => fail
           | _ => destruct (Z.eqb_spec r k) as [->|?];
                  [try destruct escapeNewline; try discriminate;
                   intros Heq; injection Heq as <-; apply runes_ascii;
                   repeat constructor|]
           end
         end.
  destruct (negb _ && _).
  { intros Heq. injection Heq as <-. apply runes_ascii, hexCharRef_ascii. exact Hr. }
  destruct (negb _ || _); [|discriminate].
  intros Heq. injection Heq as <-. apply runes_one, oneRune_fffd.
Qed.

Lemma escapeRunes_runes (sw : Z -> nat -> option (list Z)) :
  (forall r w esc, 0 <= r -> sw r w = Some esc -> runes esc) ->
  sw utf8.RuneError 1%nat <> None ->
  forall (fuel : nat) (p : list Z),
    Forall (fun b => 0 <= b < 256) p ->
    runes (escapeRunes sw fuel p).
Proof.
  intros Hsw Herr fuel. induction fuel as [|fuel IH]; intros p Hp.
  - apply runes_nil.
  - destruct p as [|p0 p']; [apply runes_nil|].
    assert (0 <= p0) as Hp0 by (inversion Hp; lia).
    pose proof (DecodeRune_nonneg p0 p' Hp0) as Hnn.
    rewrite escapeRunes_cons.
    destruct (utf8.DecodeRune (p0 :: p')) as [r w] eqn:Hdec. cbn [fst snd] in *.
    apply runes_app; [|apply IH, Forall_drop; exact Hp].
    destruct (sw r w) as [esc|] eqn:Hsome; [exact (Hsw r w esc Hnn Hsome)|].
    apply runes_one, (oneRune_decoded (p0 :: p') r w); [discriminate|exact Hdec|].
    intros [-> ->]. exact (Herr Hsome).
Qed.

(** X4. Escaped output is valid UTF-8. Whatever bytes come in, be they invalid
    UTF-8, what either function writes is valid UTF-8: undecodable bytes
    are replaced by the encoding of U+FFFD, replacements are ASCII, and
    values that are kept are written as the bytes they were decoded
    from. *)
Theorem escaped_output_is_valid_utf8 (out : Buffer) (s : list Z)
        (escapeNewline : bool) :
  Forall (fun b => 0 <= b < 256) s ->
  (exists o, escapeAttrValue out s = Done (out ++ o, None) /\ validUTF8 o = true) /\
  (exists o, escapeText out s escapeNewline = Done (out ++ o, None) /\
             validUTF8 o = true).
Proof.
  intros Hs.
  destruct (escape_Buffer out s escapeNewline) as [Hattr Htext].
  split; eexists; (split; [eassumption|]); apply runes_valid.
  - apply (escapeRunes_runes attrSwitch); try assumption.
    + apply attrSwitch_runes.
    + vm_compute. discriminate.
  - apply (escapeRunes_runes (textSwitch escapeNewline)); try assumption.
    + apply textSwitch_runes.
    + vm_compute. discriminate.
Qed.

Lemma escaped_output_is_valid_utf8_witness :
  validUTF8 [0x61; 0xFF; 0xC3] = false /\
  exists o, escapeText ([] : Buffer) [0x61; 0xFF; 0xC3] false = Done ([] ++ o, None) /\
            validUTF8 o = true.
Proof.
  split; [reflexivity|].
  apply (proj2 (escaped_output_is_valid_utf8 [] [0x61; 0xFF; 0xC3] false
                  ltac:(repeat constructor; lia))).
Defined.

(** ** Content outside any element *)

(** X14. Text and comments need an open element. With no cursor, [Characters]
    and [Comment] fail with their own error and change nothing; so does
    [IgnorableWhitespace] when blanks are kept, while it succeeds, dropping
    the bytes, when they are not. *)
Theorem content_needs_open_element (st : world) (data : list Z) :
  t_node (t st) = None ->
  TreeBuilder.Characters st data
  = Done (st, Some (errorString "text content placed in wrong location")) /\
  TreeBuilder.Comment st data
  = Done (st, Some (errorString "comment placed in wrong location")) /\
  TreeBuilder.IgnorableWhitespace st data
  = Done (st, if keepBlanks (ctx st)
              then Some (errorString "text content placed in wrong location")
              else None).
Proof.
  intros Hcur.
  unfold TreeBuilder.IgnorableWhitespace, TreeBuilder.Characters, TreeBuilder.Comment.
  rewrite Hcur. destruct (keepBlanks (ctx st)); repeat split; reflexivity.
Qed.

Lemma content_needs_open_element_witness :
  TreeBuilder.Characters startedWorld (bytes "x")
  = Done (startedWorld, Some (errorString "text content placed in wrong location")).
Proof.
  apply (proj1 (content_needs_open_element startedWorld (bytes "x") eq_refl)).
Defined.

(** ** What element-end can change *)

(** X15. [EndElement] reports no error and touches nothing but the cursor: the
    heap, the document reference and the context are as before, and the
    cursor either stays or moves to the parent of the node it was on. With
    no cursor, or with the cursor on a node that is not an element, nothing
    changes at all. *)
Theorem EndElement_only_moves_cursor (st st' : world) (localname prefix uri : string)
        (err : option error) :
  TreeBuilder.EndElement st localname prefix uri = Done (st', err) ->
  err = None /\ mem st' = mem st /\ ctx st' = ctx st /\
  t_doc (t st') = t_doc (t st) /\
  (st' = st \/
   exists n e, t_node (t st) = Some n /\ mem st !! n = Some (OElement e) /\
               t_node (t st') = parent (base e)).
Proof.
  unfold TreeBuilder.EndElement.
  destruct (t_node (t st)) as [n|] eqn:Hcur.
  - unfold deref. destruct (mem st !! n) as [o|] eqn:Hn; simpl; [|discriminate].
    destruct o as [d|e|e|e|e];
      try (intros Heq; injection Heq as <- <-; repeat split; left; reflexivity).
    destruct (_ && _); intros Heq; injection Heq as <- <-; repeat split.
    + right. exists n, e. repeat split; reflexivity || assumption.
    + left. reflexivity.
  - intros Heq. injection Heq as <- <-. repeat split. left. reflexivity.
Qed.

Lemma EndElement_only_moves_cursor_witness :
  exists st',
    TreeBuilder.EndElement openItemWorld "item" "a" "urn:a" = Done (st', None) /\
    mem st' = mem openItemWorld /\ ctx st' = ctx openItemWorld /\
    t_doc (t st') = t_doc (t openItemWorld).
Proof.
  assert (exists st', TreeBuilder.EndElement openItemWorld "item" "a" "urn:a"
                      = Done (st', None)) as [st' Hend].
  { eexists. vm_compute. reflexivity. }
  exists st'. split; [exact Hend|].
  destruct (EndElement_only_moves_cursor openItemWorld st' "item" "a" "urn:a" None Hend)
    as (_ & Hmem & Hctx & Hdoc & _).
  repeat split; assumption.
Defined.

(** ** Parameter entities *)

(** X13. [GetParameterEntity] panics on a [nil] [*parserCtx] held in the
    interface (it passes the test against [nil]) and on a context of another
    type. On the [nil] interface and on a context whose document, if any, is
    live, it answers with an entity or with an error, never with both and
    never with neither: [ErrInvalidParserCtx] exactly on the [nil]
    interface, [ErrInvalidDocument] exactly on a context without document,
    [ErrEntityNotFound] exactly on a miss of the document's lookup, and an
    entity exactly on a hit, the one that the lookup found. *)
Theorem GetParameterEntity_entity_xor_error
        (lookupPE : Document -> string -> option Entity)
        (h : heap) (ctxif : sax_Context) (nm : string) :
  (forall c dp, ctxif = ParserCtxPointer (Some c) -> ctx_doc c = Some dp ->
                exists d, h !! dp = Some (ODocument d)) ->
  match ctxif with
  | ParserCtxPointer None =>
    GetParameterEntity lookupPE h ctxif nm
    = Panic "invalid memory address or nil pointer dereference"
  | OtherContext ty =>
    GetParameterEntity lookupPE h ctxif nm = Panic (assertionPanic ty)
  | _ =>
    exists ret err,
      GetParameterEntity lookupPE h ctxif nm = Done (ret, err) /\
      (ret = None <-> err <> None) /\
      (err = Some ErrInvalidParserCtx <-> ctxif = NilContext) /\
      (err = Some ErrInvalidDocument <->
       exists c, ctxif = ParserCtxPointer (Some c) /\ ctx_doc c = None) /\
      (err = Some ErrEntityNotFound <->
       exists c dp d, ctxif = ParserCtxPointer (Some c) /\
                      ctx_doc c = Some dp /\
                      h !! dp = Some (ODocument d) /\ lookupPE d nm = None) /\
      (forall e, ret = Some e <->
                 exists c dp d, ctxif = ParserCtxPointer (Some c) /\
                                ctx_doc c = Some dp /\
                                h !! dp = Some (ODocument d) /\
                                lookupPE d nm = Some e)
  end.
Proof.
  intros Hlive. unfold GetParameterEntity.
  destruct ctxif as [|[c|]|ty]; [| |reflexivity|reflexivity].
  - exists None, (Some ErrInvalidParserCtx). split; [reflexivity|].
    split; [split; [discriminate|reflexivity]|].
    split; [split; reflexivity|].
    split; [split; [discriminate|intros (c' & Hc & _); discriminate]|].
    split; [split; [discriminate|intros (c' & dp' & d' & Hc & _); discriminate]|].
    intros e'. split; [discriminate|].
    intros (c' & dp' & d' & Hc & _). discriminate.
  - destruct (ctx_doc c) as [dp|] eqn:Hdoc.
    + destruct (Hlive c dp eq_refl Hdoc) as [d Hd].
      unfold derefDocument, deref. rewrite Hd. simpl.
      destruct (lookupPE d nm) as [e|] eqn:Hlook.
      * exists (Some e), None. split; [reflexivity|].
        split; [split; [discriminate|congruence]|].
        split; [split; discriminate|].
        split; [split; [discriminate|intros (c' & Hc & Hnone); congruence]|].
        split; [split; [discriminate|]|].
        { intros (c' & dp' & d' & Hc & Hdp & Hd' & Hl). congruence. }
        intros e'. split.
        -- intros Heq. injection Heq as <-. exists c, dp, d. auto.
        -- intros (c' & dp' & d' & Hc & Hdp & Hd' & Hl). congruence.
      * exists None, (Some ErrEntityNotFound). split; [reflexivity|].
        split; [split; [discriminate|reflexivity]|].
        split; [split; discriminate|].
        split; [split; [discriminate|intros (c' & Hc & Hnone); congruence]|].
        split; [split; [intros _; exists c, dp, d; auto|reflexivity]|].
        intros e'. split; [discriminate|].
        intros (c' & dp' & d' & Hc & Hdp & Hd' & Hl). congruence.
    + exists None, (Some ErrInvalidDocument). split; [reflexivity|].
      split; [split; [discriminate|reflexivity]|].
      split; [split; discriminate|].
      split; [split; [intros _; exists c; auto|reflexivity]|].
      split; [split; [discriminate|intros (c' & dp' & d' & Hc & Hdp & _); congruence]|].
      intros e'. split; [discriminate|].
      intros (c' & dp' & d' & Hc & Hdp & _). congruence.
Qed.

Lemma GetParameterEntity_entity_xor_error_witness :
  GetParameterEntity lookupInSubsets [ODocument peDoc]
                     (ParserCtxPointer (Some peCtx)) "pe"
  = Done (Some peEntity, None) /\
  GetParameterEntity lookupInSubsets [ODocument peDoc]
                     (ParserCtxPointer (Some peCtx)) "other"
  = Done (None, Some ErrEntityNotFound) /\
  GetParameterEntity lookupInSubsets [ODocument peDoc] NilContext "pe"
  = Done (None, Some ErrInvalidParserCtx) /\
  GetParameterEntity lookupInSubsets [ODocument peDoc] (ParserCtxPointer None) "pe"
  = Panic "invalid memory address or nil pointer dereference".
Proof.
  assert (forall ctxif c dp,
             ctxif = ParserCtxPointer (Some c) -> ctx_doc c = Some dp ->
             (ctxif = ParserCtxPointer (Some peCtx) \/ ctxif = NilContext \/
              ctxif = ParserCtxPointer None) ->
             exists d, [ODocument peDoc] !! dp = Some (ODocument d)) as Hlive.
  { intros ctxif c dp Hc Hdp [Heq|[Heq|Heq]]; rewrite Heq in Hc;
      try discriminate Hc.
    injection Hc as <-. injection Hdp as <-. exists peDoc. reflexivity. }
  split; [|split; [|split]].
  - destruct (GetParameterEntity_entity_xor_error lookupInSubsets [ODocument peDoc]
                (ParserCtxPointer (Some peCtx)) "pe")
      as (ret & err & Hget & Hxor & _ & _ & _ & Hhit).
    + intros c dp Hc Hdp. apply (Hlive _ c dp Hc Hdp). left. reflexivity.
    + rewrite Hget.
      assert (ret = Some peEntity) as ->.
      { apply Hhit. exists peCtx, 0%nat, peDoc. repeat split. }
      destruct err as [e|]; [|reflexivity].
      destruct Hxor as [_ Hxor]. discriminate Hxor. discriminate.
  - destruct (GetParameterEntity_entity_xor_error lookupInSubsets [ODocument peDoc]
                (ParserCtxPointer (Some peCtx)) "other")
      as (ret & err & Hget & Hxor & _ & _ & Hmiss & _).
    + intros c dp Hc Hdp. apply (Hlive _ c dp Hc Hdp). left. reflexivity.
    + rewrite Hget.
      assert (err = Some ErrEntityNotFound) as ->.
      { apply Hmiss. exists peCtx, 0%nat, peDoc. repeat split. }
      destruct Hxor as [_ Hxor]. rewrite Hxor by discriminate. reflexivity.
  - destruct (GetParameterEntity_entity_xor_error lookupInSubsets [ODocument peDoc]
                NilContext "pe")
      as (ret & err & Hget & Hxor & Hnil & _).
    + intros c dp Hc. discriminate Hc.
    + rewrite Hget.
      assert (err = Some ErrInvalidParserCtx) as -> by (apply Hnil; reflexivity).
      destruct Hxor as [_ Hxor]. rewrite Hxor by discriminate. reflexivity.
  - apply (GetParameterEntity_entity_xor_error lookupInSubsets [ODocument peDoc]
             (ParserCtxPointer None) "pe").
    intros c dp Hc. discriminate Hc.
Defined.

(** ** Option constants *)

(** X16. The parse options are not independent bit flags. The first nine, and
    [ParseBigLines], are distinct single bits; every option from
    [ParseXInclude] to [ParseHuge] also holds the bits of [ParseNoEnt] and
    [ParseDTDAttr], and [ParseIgnoreEnc] those of [ParseRecover],
    [ParseDTDLoad] and [ParseDTDValid], so that a test [opts & ParseNoEnt]
    succeeds on a set built from [ParseXInclude] alone. Likewise the load
    options are 2, 3 and 5, and [CompleteAttrs] holds the bit of
    [DetectIDs]. *)
Theorem parse_options_overlap :
  take 9 parseOptions ++ [ParseBigLines]
  = [2 ^ 0; 2 ^ 1; 2 ^ 2; 2 ^ 3; 2 ^ 4; 2 ^ 5; 2 ^ 6; 2 ^ 7; 2 ^ 8; 2 ^ 22] /\
  Forall (fun o => Z.land o ParseNoEnt = ParseNoEnt /\
                   Z.land o ParseDTDAttr = ParseDTDAttr)
         (take 9 (drop 9 parseOptions)) /\
  Z.land ParseIgnoreEnc (Z.lor ParseRecover (Z.lor ParseDTDLoad ParseDTDValid))
  = Z.lor ParseRecover (Z.lor ParseDTDLoad ParseDTDValid) /\
  (DetectIDs, CompleteAttrs, SkipIDs) = (2, 3, 5) /\
  Z.land CompleteAttrs DetectIDs = DetectIDs.
Proof.
  split; [reflexivity|].
  split; [simpl; repeat constructor|].
  repeat split; reflexivity.
Qed.
